(** * ChaincodeMockStub: a shallow embedding of src/ChaincodeMockStub.ts

    The stub keeps its ledger in JavaScript objects that it uses as
    dictionaries ([this.state[key] = value], [Object.keys(this.state)],
    [delete this.state[key]]).  The embedding follows the code:

    - a JavaScript object whose keys are enumerated ([state], the private
      collections) is an association list in property-creation order, and
      [Object_keys] applies the ECMAScript enumeration order on top of it;
    - an object that is only read and written by key ([history],
      [invokables], the table of private collections) is a [gmap];
    - [undefined] is [None];
    - a method returns its outcome together with the stub it leaves behind.

    The objects of the stub are [Map]s that the code reads and writes with
    brackets.  The embedding keeps their own properties only: a [Stub] stands
    for a stub whose objects inherit nothing but the built-in members of
    [Map.prototype] and [Object.prototype], and it follows the code on the
    [ordinary] names, those that are not the name of such a member.  On the
    other names the code reaches the inherited member ("constructor" reads a
    function, "size" reads 0 and cannot be stored, "__proto__" replaces the
    prototype), which the embedding does not describe; the theorems that
    would depend on it carry the hypothesis that the names are ordinary, or
    speak of the own properties. *)

From Stdlib Require Import String Ascii ZArith NArith List Lia Bool.
From Stdlib Require Import Sorting.Permutation Sorting.Sorted.
From stdpp Require Import base option gmap strings.
Import ListNotations.

Local Open Scope string_scope.

(** ** Byte strings and their order *)

(** A [Buffer] is a byte sequence; a Rocq [string] is a sequence of 8-bit
    characters, so keys, arguments and values are all [string]s. *)
Definition Buffer : Type := string.

(** Byte-wise lexicographic order, as a relation. *)
Inductive lex_le : string -> string -> Prop :=
| lex_le_empty b : lex_le "" b
| lex_le_head c1 c2 a b :
    (N_of_ascii c1 < N_of_ascii c2)%N -> lex_le (String c1 a) (String c2 b)
| lex_le_tail c a b : lex_le a b -> lex_le (String c a) (String c b).

(** Modelled from the spec: [Helpers.strcmp] (src/utils/helpers.ts) is not
    among the sources.  The key-ordering contract is "byte-wise
    lexicographic comparison of key strings"; the callers only test the sign
    of the result. *)
Fixpoint strcmp (a b : string) : Z :=
  match a, b with
  | "", "" => 0
  | "", String _ _ => -1
  | String _ _, "" => 1
  | String c1 a', String c2 b' =>
      if (N_of_ascii c1 <? N_of_ascii c2)%N then -1
      else if (N_of_ascii c2 <? N_of_ascii c1)%N then 1
      else strcmp a' b'
  end%Z.

(** ** JavaScript objects used as dictionaries *)

Module JsObject.

(** Own enumerable string-keyed properties, oldest first. *)
Definition t (V : Type) : Type := list (string * V).

Definition empty {V} : t V := [].

(** [o[k]] *)
Fixpoint get {V} (o : t V) (k : string) : option V :=
  match o with
  | [] => None
  | (k', v) :: o' => if String.eqb k' k then Some v else get o' k
  end.

(** [o[k] = v]: an existing property keeps its place, a new one goes last. *)
Fixpoint set {V} (o : t V) (k : string) (v : V) : t V :=
  match o with
  | [] => [(k, v)]
  | (k', v') :: o' =>
      if String.eqb k' k then (k', v) :: o' else (k', v') :: set o' k v
  end.

(** [delete o[k]] *)
Fixpoint delete {V} (o : t V) (k : string) : t V :=
  match o with
  | [] => []
  | (k', v') :: o' =>
      if String.eqb k' k then delete o' k else (k', v') :: delete o' k
  end.

Fixpoint mem (k : string) (l : list string) : bool :=
  match l with
  | [] => false
  | k' :: l' => String.eqb k' k || mem k l'
  end.

Fixpoint nodupb (l : list string) : bool :=
  match l with
  | [] => true
  | k :: l' => negb (mem k l') && nodupb l'
  end.

(** A JavaScript object has one property per key. *)
Definition wf {V} (o : t V) : Prop := nodupb (map fst o) = true.

(** *** Enumeration order *)

Definition is_digit (c : ascii) : bool :=
  ((48 <=? N_of_ascii c) && (N_of_ascii c <=? 57))%N.

Fixpoint parse_digits (acc : N) (s : string) : option N :=
  match s with
  | "" => Some acc
  | String c s' =>
      if is_digit c
      then parse_digits (10 * acc + (N_of_ascii c - 48))%N s'
      else None
  end.

(** An array index is a canonical numeric string below 2^32 - 1. *)
Definition array_index (s : string) : option N :=
  match s with
  | "" => None
  | String "0"%char "" => Some 0%N
  | String "0"%char _ => None
  | _ =>
      match parse_digits 0 s with
      | Some n => if (n <? 2 ^ 32 - 1)%N then Some n else None
      | None => None
      end
  end.

Definition is_index (s : string) : bool :=
  match array_index s with Some _ => true | None => false end.

Definition index_val (s : string) : N :=
  match array_index s with Some n => n | None => 0%N end.

Fixpoint insert_index (k : string) (l : list string) : list string :=
  match l with
  | [] => [k]
  | k' :: l' =>
      if (index_val k <=? index_val k')%N then k :: l
      else k' :: insert_index k l'
  end.

Definition sort_indices (l : list string) : list string :=
  fold_right insert_index [] l.

(** [Object.keys(o)]: array indices in ascending numeric order, then the
    other keys in creation order. *)
Definition Object_keys {V} (o : t V) : list string :=
  let ks := map fst o in
  sort_indices (List.filter is_index ks)
    ++ List.filter (fun k => negb (is_index k)) ks.

End JsObject.

(** ** Values held by the stub *)

(** A JavaScript [Map] that the stub uses as a property bag: [m[k] = v]
    creates an own property, while [Map.prototype.delete] works on the
    entries of the map, which the stub never fills. *)
Record StateMap := {
  props : JsObject.t Buffer;
  mapData : list (string * Buffer)
}.

Definition new_Map : StateMap := {| props := JsObject.empty; mapData := [] |}.

Definition set_prop (m : StateMap) (k : string) (v : Buffer) : StateMap :=
  {| props := JsObject.set (props m) k v; mapData := mapData m |}.

Definition delete_prop (m : StateMap) (k : string) : StateMap :=
  {| props := JsObject.delete (props m) k; mapData := mapData m |}.

(** [m.delete(k)] *)
Definition Map_delete (m : StateMap) (k : string) : StateMap :=
  {| props := props m;
     mapData := List.filter (fun e => negb (String.eqb (fst e) k)) (mapData m) |}.

(** [undefined], [null] or an object. *)
Inductive Nullable (A : Type) : Type :=
| js_undefined
| js_null
| js_val (a : A).
Arguments js_undefined {A}.
Arguments js_null {A}.
Arguments js_val {A} a.

(** The signed proposal is opaque to the stub: either the placeholder [{}]
    of [mockTransactionStart] or an object given by the test. *)
Inductive SignedProposal : Type :=
| sp_placeholder
| sp_given (sp : Buffer).

(** [new Timestamp()] of google-protobuf: the default message. *)
Record Timestamp := { seconds : Z; nanos : Z }.
Definition new_Timestamp : Timestamp := {| seconds := 0; nanos := 0 |}.

(** The class MockProtoTimestamp is not among the sources; the object that
    [new MockProtoTimestamp()] builds at the time of a call is an input of
    the operation that makes the call. *)
Inductive MockProtoTimestamp : Type := ProtoTimestamp (reading : Z).

Record KeyModification := {
  is_delete : bool;
  km_value : option Buffer;
  timestamp : MockProtoTimestamp;
  tx_id : option string
}.

Record KV := { kv_key : string; kv_value : option Buffer }.

Record ChaincodeResponse := {
  status : Z;
  message : string;
  payload : Buffer
}.

Inductive JsError : Type :=
| TypeError
| Error (msg : string)
| UnknownKey.

(** What a call produces: a value (returned, or a promise resolved with
    it), a promise rejected with a reason string, or an exception. *)
Inductive Outcome (A : Type) : Type :=
| Returned (a : A)
| Rejected (reason : string)
| Thrown (e : JsError).
Arguments Returned {A} a.
Arguments Rejected {A} reason.
Arguments Thrown {A} e.

(** Modelled from the spec: the class MockStateQueryIterator
    (src/MockStateQueryIterator.ts) is not among the sources.  A range
    iterator is a finite sequence of key/value pairs computed from a
    snapshot; it yields the items it was built from, in their order. *)
Record MockStateQueryIterator := { state_items : list KV }.



(** ** The stub *)

(** Stubs refer to each other ([invokables]); a reference is an address in
    the [World] of stubs. *)
Definition StubId : Type := nat.

Record Stub := {
  txTimestamp : option Timestamp;
  txID : option string;
  args : option (list string);
  state : StateMap;
  transientMap : option StateMap;
  privateCollections : gmap string StateMap;
  event : gmap string Buffer;
  history : gmap string (list KeyModification);
  invokables : gmap string StubId;
  signedProposal : Nullable SignedProposal;
  mspId : string;
  usercert : string
}.

(** The constructor: [txID], [args], [txTimestamp] and [signedProposal]
    have no initialiser. *)
Definition new_ChaincodeMockStub (cert : string) : Stub :=
  {| txTimestamp := None;
     txID := None;
     args := None;
     state := new_Map;
     transientMap := Some new_Map;
     privateCollections := ∅;
     event := ∅;
     history := ∅;
     invokables := ∅;
     signedProposal := js_undefined;
     mspId := "dummymspId";
     usercert := cert |}.

Definition set_txTimestamp (x : option Timestamp) (s : Stub) : Stub :=
  {| txTimestamp := x; txID := txID s; args := args s; state := state s;
     transientMap := transientMap s;
     privateCollections := privateCollections s; event := event s;
     history := history s; invokables := invokables s;
     signedProposal := signedProposal s; mspId := mspId s;
     usercert := usercert s |}.

Definition set_txID (x : option string) (s : Stub) : Stub :=
  {| txTimestamp := txTimestamp s; txID := x; args := args s;
     state := state s; transientMap := transientMap s;
     privateCollections := privateCollections s; event := event s;
     history := history s; invokables := invokables s;
     signedProposal := signedProposal s; mspId := mspId s;
     usercert := usercert s |}.

Definition set_args (x : option (list string)) (s : Stub) : Stub :=
  {| txTimestamp := txTimestamp s; txID := txID s; args := x;
     state := state s; transientMap := transientMap s;
     privateCollections := privateCollections s; event := event s;
     history := history s; invokables := invokables s;
     signedProposal := signedProposal s; mspId := mspId s;
     usercert := usercert s |}.

Definition set_state (x : StateMap) (s : Stub) : Stub :=
  {| txTimestamp := txTimestamp s; txID := txID s; args := args s;
     state := x; transientMap := transientMap s;
     privateCollections := privateCollections s; event := event s;
     history := history s; invokables := invokables s;
     signedProposal := signedProposal s; mspId := mspId s;
     usercert := usercert s |}.

Definition set_transientMap (x : option StateMap) (s : Stub) : Stub :=
  {| txTimestamp := txTimestamp s; txID := txID s; args := args s;
     state := state s; transientMap := x;
     privateCollections := privateCollections s; event := event s;
     history := history s; invokables := invokables s;
     signedProposal := signedProposal s; mspId := mspId s;
     usercert := usercert s |}.

Definition set_privateCollections (x : gmap string StateMap) (s : Stub) : Stub :=
  {| txTimestamp := txTimestamp s; txID := txID s; args := args s;
     state := state s; transientMap := transientMap s;
     privateCollections := x; event := event s;
     history := history s; invokables := invokables s;
     signedProposal := signedProposal s; mspId := mspId s;
     usercert := usercert s |}.

Definition set_event (x : gmap string Buffer) (s : Stub) : Stub :=
  {| txTimestamp := txTimestamp s; txID := txID s; args := args s;
     state := state s; transientMap := transientMap s;
     privateCollections := privateCollections s; event := x;
     history := history s; invokables := invokables s;
     signedProposal := signedProposal s; mspId := mspId s;
     usercert := usercert s |}.

Definition set_history (x : gmap string (list KeyModification)) (s : Stub) : Stub :=
  {| txTimestamp := txTimestamp s; txID := txID s; args := args s;
     state := state s; transientMap := transientMap s;
     privateCollections := privateCollections s; event := event s;
     history := x; invokables := invokables s;
     signedProposal := signedProposal s; mspId := mspId s;
     usercert := usercert s |}.

Definition set_invokables (x : gmap string StubId) (s : Stub) : Stub :=
  {| txTimestamp := txTimestamp s; txID := txID s; args := args s;
     state := state s; transientMap := transientMap s;
     privateCollections := privateCollections s; event := event s;
     history := history s; invokables := x;
     signedProposal := signedProposal s; mspId := mspId s;
     usercert := usercert s |}.

Definition set_signedProposal (x : Nullable SignedProposal) (s : Stub) : Stub :=
  {| txTimestamp := txTimestamp s; txID := txID s; args := args s;
     state := state s; transientMap := transientMap s;
     privateCollections := privateCollections s; event := event s;
     history := history s; invokables := invokables s;
     signedProposal := x; mspId := mspId s;
     usercert := usercert s |}.

Definition set_mspId (x : string) (s : Stub) : Stub :=
  {| txTimestamp := txTimestamp s; txID := txID s; args := args s;
     state := state s; transientMap := transientMap s;
     privateCollections := privateCollections s; event := event s;
     history := history s; invokables := invokables s;
     signedProposal := signedProposal s; mspId := x;
     usercert := usercert s |}.

(** ** Methods that touch one stub *)

Definition getTxID (s : Stub) : option string := txID s.

Definition getArgs (s : Stub) : option (list string) := args s.

Definition getStringArgs (s : Stub) : option (list string) := args s.

Record FunctionAndParameters := { params : list string; fcn : string }.

(** [params] is the array stored in [this.args], not a copy, so
    [params.splice(0, 1)] removes the first element of the stored array and
    the returned [params] is that same array.  Reading [params.length] of
    [undefined] throws. *)
Definition getFunctionAndParameters (s : Stub)
  : Outcome FunctionAndParameters * Stub :=
  match getStringArgs s with
  | None => (Thrown TypeError, s)
  | Some params0 =>
      if (1 <=? length params0)%nat then
        let fcn0 := nth 0 params0 "" in
        let spliced := skipn 1 params0 in
        (Returned {| params := spliced; fcn := fcn0 |},
         set_args (Some spliced) s)
      else
        (Returned {| params := params0; fcn := "" |}, s)
  end.

Definition setSignedProposal (sp : Nullable SignedProposal) (s : Stub) : Stub :=
  set_signedProposal sp s.

Definition setTxTimestamp (t : Timestamp) (s : Stub) : Stub :=
  set_txTimestamp (Some t) s.

Definition mockTransactionStart (txid : option string)
    (transient : option StateMap) (s : Stub) : Stub :=
  set_transientMap transient
    (setTxTimestamp new_Timestamp
       (setSignedProposal (js_val sp_placeholder)
          (set_txID txid s))).

Definition mockTransactionEnd (uuid : option string) (s : Stub) : Stub :=
  set_transientMap (Some new_Map)
    (set_txID (Some "")
       (set_signedProposal js_null s)).

Definition mockPeerChaincode (invokableChaincodeName : string)
    (otherStub : StubId) (s : Stub) : Stub :=
  set_invokables (<[invokableChaincodeName := otherStub]> (invokables s)) s.

(** [this.txID == '']: [undefined == ''] is false. *)
Definition txID_is_empty (s : Stub) : bool :=
  match txID s with
  | Some t => String.eqb t ""
  | None => false
  end.

Definition getState (s : Stub) (key : string) : option Buffer :=
  JsObject.get (props (state s)) key.

(** [this.history[key].push(record)]: a [TypeError] when [this.history[key]]
    is [undefined]. *)
Definition history_push (key : string) (record : KeyModification) (s : Stub)
  : option Stub :=
  match history s !! key with
  | Some log => Some (set_history (<[key := (log ++ [record])%list]> (history s)) s)
  | None => None
  end.

Definition no_transaction_putState : string :=
  "Cannot putState without a transaction - call stub.mockTransactionStart()!".

Definition putState (s : Stub) (key : string) (value : Buffer)
    (now : MockProtoTimestamp) : Outcome unit * Stub :=
  if txID_is_empty s then (Rejected no_transaction_putState, s)
  else
    let s1 := set_state (set_prop (state s) key value) s in
    let s2 :=
      match history s1 !! key with
      | None => set_history (<[key := []]> (history s1)) s1
      | Some _ => s1
      end in
    match history_push key
            {| is_delete := false; km_value := Some value;
               timestamp := now; tx_id := txID s2 |} s2 with
    | Some s3 => (Returned tt, s3)
    | None => (Thrown TypeError, s2)
    end.

Definition deleteState (s : Stub) (key : string) (now : MockProtoTimestamp)
  : Outcome unit * Stub :=
  let value := JsObject.get (props (state s)) key in
  match history_push key
          {| is_delete := true; km_value := value;
             timestamp := now; tx_id := txID s |} s with
  | Some s1 => (Returned tt, set_state (delete_prop (state s1) key) s1)
  | None => (Thrown TypeError, s)
  end.

(** The filter of the range scans. *)
Definition in_range (startKey endKey k : string) : bool :=
  let comp1 := strcmp k startKey in
  let comp2 := strcmp k endKey in
  ((comp1 >=? 0)%Z && (comp2 <=? 0)%Z)
  || (String.eqb startKey "" && String.eqb endKey "").

(** [Object.keys(o).filter(...).map(k => ({key: k, value: o[k]}))] *)
Definition range_items (o : JsObject.t Buffer) (startKey endKey : string)
  : list KV :=
  map (fun k => {| kv_key := k; kv_value := JsObject.get o k |})
    (List.filter (in_range startKey endKey) (JsObject.Object_keys o)).

(** The promise is always resolved; the two [console.log] calls are not
    modelled. *)
Definition getStateByRange (s : Stub) (startKey endKey : string)
  : MockStateQueryIterator :=
  {| state_items := range_items (props (state s)) startKey endKey |}.


Definition setCreator (mspId0 : string) (s : Stub) : Stub := set_mspId mspId0 s.

Definition no_transaction_setEvent : string :=
  "Cannot setEvent without a transactions - call stub.mockTransactionStart()!".

Definition setEvent (s : Stub) (name : string) (payload0 : Buffer)
  : Outcome unit * Stub :=
  if txID_is_empty s then (Rejected no_transaction_setEvent, s)
  else (Returned tt, set_event (<[name := payload0]> (event s)) s).

Definition getEvent (s : Stub) (name : string) : option Buffer :=
  event s !! name.

(** [this.privateCollections[collection] || {}] *)
Definition collection_or_empty (s : Stub) (collection : string)
  : JsObject.t Buffer :=
  match privateCollections s !! collection with
  | Some m => props m
  | None => JsObject.empty
  end.

Definition getPrivateData (s : Stub) (collection key : string)
  : option Buffer :=
  JsObject.get (collection_or_empty s collection) key.

Definition putPrivateData (s : Stub) (collection key : string)
    (value : Buffer) : Outcome unit * Stub :=
  if txID_is_empty s then (Rejected no_transaction_putState, s)
  else
    let s1 :=
      match privateCollections s !! collection with
      | None =>
          set_privateCollections
            (<[collection := new_Map]> (privateCollections s)) s
      | Some _ => s
      end in
    match privateCollections s1 !! collection with
    | Some m =>
        (Returned tt,
         set_privateCollections
           (<[collection := set_prop m key value]> (privateCollections s1)) s1)
    | None => (Thrown TypeError, s1)
    end.

(** The value is removed with [Map.prototype.delete], which leaves the own
    property [collection[key]] in place. *)
Definition deletePrivateData (s : Stub) (collection key : string)
  : Outcome unit * Stub :=
  match JsObject.get (collection_or_empty s collection) key with
  | Some _ =>
      match privateCollections s !! collection with
      | Some m =>
          (Returned tt,
           set_privateCollections
             (<[collection := Map_delete m key]> (privateCollections s)) s)
      | None => (Thrown TypeError, s)
      end
  | None => (Returned tt, s)
  end.

Definition getPrivateDataByRange (s : Stub) (collection startKey endKey : string)
  : MockStateQueryIterator :=
  {| state_items := range_items (collection_or_empty s collection)
                      startKey endKey |}.

(** ** Composite keys *)

Section CompositeKeys.

(** The class CompositeKeys (src/CompositeKeys.ts) is not among the
    sources: its encoder, which may throw on an invalid component, and
    its upper sentinel are parameters. *)
Variable createCompositeKey : string -> list string -> Outcome string.
Variable MAX_UNICODE_RUNE_VALUE : string.

Definition getStateByPartialCompositeKey (s : Stub) (objectType : string)
    (attributes : list string) : Outcome MockStateQueryIterator :=
  match createCompositeKey objectType attributes with
  | Returned partialCompositeKey =>
      Returned (getStateByRange s partialCompositeKey
                  (partialCompositeKey ++ MAX_UNICODE_RUNE_VALUE))
  | Rejected r => Rejected r
  | Thrown e => Thrown e
  end.

Definition getPrivateDataByPartialCompositeKey (s : Stub)
    (collection objectType : string) (attributes : list string)
  : Outcome MockStateQueryIterator :=
  match createCompositeKey objectType attributes with
  | Returned partialCompositeKey =>
      Returned (getPrivateDataByRange s collection partialCompositeKey
                  (partialCompositeKey ++ MAX_UNICODE_RUNE_VALUE))
  | Rejected r => Rejected r
  | Thrown e => Thrown e
  end.

End CompositeKeys.

(** ** Methods that run chaincode *)

(** The stubs of a test, by address. *)
Abbreviation World := (gmap StubId Stub).

#[global] Instance Stub_inhabited : Inhabited Stub :=
  populate (new_ChaincodeMockStub "").

Definition update_stub (this : StubId) (f : Stub -> Stub) (w : World) : World :=
  <[this := f (w !!! this)]> w.

(** The chaincode under test receives the stub it runs on and may call any
    stub of the world. *)
Record ChaincodeInterface := {
  Init : StubId -> World -> Outcome ChaincodeResponse * World;
  Invoke : StubId -> World -> Outcome ChaincodeResponse * World
}.

Definition not_found_message (chaincodeName : string) : string :=
  "Chaincode " ++ chaincodeName
    ++ " could not be found. Please create this using mockPeerChaincode.".

Section Chaincode.

(** The [cc] argument each stub was constructed with. *)
Variable cc : StubId -> ChaincodeInterface.

(** When the chaincode fails, [await] rethrows and the transaction is not
    ended. *)
Definition mockInit (w : World) (this : StubId) (uuid : option string)
    (args0 : list string) (transient : option StateMap)
  : Outcome ChaincodeResponse * World :=
  let w1 := update_stub this (set_args (Some args0)) w in
  let w2 := update_stub this (mockTransactionStart uuid transient) w1 in
  match Init (cc this) this w2 with
  | (Returned res, w3) =>
      (Returned res, update_stub this (mockTransactionEnd uuid) w3)
  | (failure, w3) => (failure, w3)
  end.

Definition mockInvoke (w : World) (this : StubId) (uuid : option string)
    (args0 : list string) (transient : option StateMap)
  : Outcome ChaincodeResponse * World :=
  let w1 := update_stub this (set_args (Some args0)) w in
  let w2 := update_stub this (mockTransactionStart uuid transient) w1 in
  match Invoke (cc this) this w2 with
  | (Returned res, w3) =>
      (Returned res, update_stub this (mockTransactionEnd uuid) w3)
  | (failure, w3) => (failure, w3)
  end.

Definition mockInvokeWithSignedProposal (w : World) (this : StubId)
    (uuid : option string) (args0 : list string) (sp : SignedProposal)
  : Outcome ChaincodeResponse * World :=
  let w1 := update_stub this (set_args (Some args0)) w in
  let w2 := update_stub this (mockTransactionStart uuid None) w1 in
  let w3 := update_stub this (set_signedProposal (js_val sp)) w2 in
  match Invoke (cc this) this w3 with
  | (Returned res, w4) =>
      (Returned res, update_stub this (mockTransactionEnd uuid) w4)
  | (failure, w4) => (failure, w4)
  end.

Definition invokeChaincode (w : World) (this : StubId)
    (chaincodeName : string) (args0 : list string) (channel : string)
  : Outcome ChaincodeResponse * World :=
  let chaincodeName :=
    if negb (String.eqb channel "") then chaincodeName ++ "/" ++ channel
    else chaincodeName in
  match invokables (w !!! this) !! chaincodeName with
  | None => (Thrown (Error (not_found_message chaincodeName)), w)
  | Some otherStub => mockInvoke w otherStub (txID (w !!! this)) args0 None
  end.

End Chaincode.

(** ** Traces of operations on one stub *)

(** The calls a test or a chaincode can make on a stub that change it.
    [mockInit], [mockInvoke] and [mockInvokeWithSignedProposal] change their
    stub by the assignment of the arguments ([OpSetArgs]), a transaction
    start, the calls of the chaincode and a transaction end. *)
Inductive Operation : Type :=
| OpSetArgs (args0 : list string)
| OpTransactionStart (txid : option string) (transient : option StateMap)
| OpTransactionEnd (uuid : option string)
| OpPeerChaincode (name : string) (otherStub : StubId)
| OpFunctionAndParameters
| OpPutState (key : string) (value : Buffer) (now : MockProtoTimestamp)
| OpDeleteState (key : string) (now : MockProtoTimestamp)
| OpSetCreator (mspId0 : string)
| OpSetSignedProposal (sp : SignedProposal)
| OpSetTxTimestamp (t : Timestamp)
| OpSetEvent (name : string) (payload0 : Buffer)
| OpPutPrivateData (collection key : string) (value : Buffer)
| OpDeletePrivateData (collection key : string).

(** The stub an operation leaves behind, whatever its outcome. *)
Definition step (s : Stub) (op : Operation) : Stub :=
  match op with
  | OpSetArgs args0 => set_args (Some args0) s
  | OpTransactionStart txid transient => mockTransactionStart txid transient s
  | OpTransactionEnd uuid => mockTransactionEnd uuid s
  | OpPeerChaincode name otherStub => mockPeerChaincode name otherStub s
  | OpFunctionAndParameters => snd (getFunctionAndParameters s)
  | OpPutState key value now => snd (putState s key value now)
  | OpDeleteState key now => snd (deleteState s key now)
  | OpSetCreator mspId0 => setCreator mspId0 s
  | OpSetSignedProposal sp => setSignedProposal (js_val sp) s
  | OpSetTxTimestamp t => setTxTimestamp t s
  | OpSetEvent name payload0 => snd (setEvent s name payload0)
  | OpPutPrivateData collection key value =>
      snd (putPrivateData s collection key value)
  | OpDeletePrivateData collection key =>
      snd (deletePrivateData s collection key)
  end.

Definition run (s : Stub) (ops : list Operation) : Stub :=
  fold_left step ops s.

(** Whether an operation addresses the private collection [collection]. *)
Definition writes_collection (collection : string) (op : Operation) : bool :=
  match op with
  | OpPutPrivateData c _ _ | OpDeletePrivateData c _ => String.eqb c collection
  | _ => false
  end.

(** The stubs a test can build: a fresh stub and the operations on it. *)
Inductive reachable : Stub -> Prop :=
| reachable_new cert : reachable (new_ChaincodeMockStub cert)
| reachable_step s op : reachable s -> reachable (step s op).

(** ** The records that writes and deletes append *)

Definition put_record (s : Stub) (value : Buffer) (now : MockProtoTimestamp)
  : KeyModification :=
  {| is_delete := false; km_value := Some value;
     timestamp := now; tx_id := txID s |}.

Definition delete_record (s : Stub) (key : string) (now : MockProtoTimestamp)
  : KeyModification :=
  {| is_delete := true; km_value := getState s key;
     timestamp := now; tx_id := txID s |}.

(** ** Stubs used in examples *)

(** The stub of the ordering example: "b" is written before "a". *)
Definition stub_b_then_a : Stub :=
  run (new_ChaincodeMockStub "")
    [OpTransactionStart (Some "t1") None;
     OpPutState "b" "1" (ProtoTimestamp 1);
     OpPutState "a" "2" (ProtoTimestamp 2)].

(** A stub inside transaction "t1", and the same stub after the transaction
    has ended. *)
Definition stub_in_t1 : Stub :=
  mockTransactionStart (Some "t1") None (new_ChaincodeMockStub "").

Definition stub_after_t1 : Stub := mockTransactionEnd (Some "t1") stub_in_t1.

(** The stub as [mockInvoke "t1" ["fn"; "a"; "b"]] hands it to the chaincode. *)
Definition stub_with_args : Stub :=
  mockTransactionStart (Some "t1") None
    (set_args (Some ["fn"; "a"; "b"]) (new_ChaincodeMockStub "")).

(** A chaincode whose response carries the transaction id it runs under,
    and a world in which stub 1, inside transaction "t1", has stub 2
    registered as peer "cc2". *)
Definition echo_txid : ChaincodeInterface :=
  let respond := fun (this : StubId) (w : World) =>
    (Returned {| status := 200; message := "";
                 payload := default "" (getTxID (w !!! this)) |}, w) in
  {| Init := respond; Invoke := respond |}.

Definition two_stub_world : World :=
  {[ 1%nat := mockPeerChaincode "cc2" 2%nat stub_in_t1;
     2%nat := new_ChaincodeMockStub "" ]}.

(** The same world after stub 1 also registers stub 2 for channel "ch". *)
Definition two_stub_world_ch : World :=
  update_stub 1%nat (mockPeerChaincode "cc2/ch" 2%nat) two_stub_world.

(** ** What a stub shows outside one private collection *)

(** The stub with the private collection [collection] forgotten. *)
Definition erase (collection : string) (s : Stub) : Stub :=
  set_privateCollections (delete collection (privateCollections s)) s.

(** [k] extends [p]. *)
Definition has_prefix (p k : string) : Prop := exists suffix, k = p ++ suffix.

(** ** Readers of the transaction context *)

Definition getSignedProposal (s : Stub) : Nullable SignedProposal :=
  signedProposal s.

(** [this.txTimestamp == null] also holds for [undefined]. *)
Definition getTxTimestamp (s : Stub) : Outcome Timestamp :=
  match txTimestamp s with
  | None => Thrown (Error "TxTimestamp not set.")
  | Some t => Returned t
  end.

Definition getTransient (s : Stub) : option StateMap := transientMap s.

(** ** What a history log says about the live value *)

(** The value a log leaves behind: that of its last record, unless the
    record is a delete. *)
Definition replay (log : option (list KeyModification)) : option Buffer :=
  match log with
  | None => None
  | Some l =>
      match last l with
      | Some r => if is_delete r then None else km_value r
      | None => None
      end
  end.

(** Every private collection holds one property per key. *)
Definition wf_collections (s : Stub) : Prop :=
  forall c m, privateCollections s !! c = Some m -> JsObject.wf (props m).

(** ** Vocabulary of the lifecycle properties *)

(** A stub as [mockTransactionEnd] leaves it: the transaction id is the
    empty string, the signed proposal is [null], the transient map is a new
    empty map, and [putState] is rejected. *)
Definition idle (s : Stub) : Prop :=
  getTxID s = Some ""
  /\ getSignedProposal s = js_null
  /\ getTransient s = Some new_Map
  /\ forall key value now,
       putState s key value now = (Rejected no_transaction_putState, s).

(** The timestamp an operation installs, if it installs one. *)
Definition timestamp_set_by (op : Operation) : option Timestamp :=
  match op with
  | OpTransactionStart _ _ => Some new_Timestamp
  | OpSetTxTimestamp t => Some t
  | _ => None
  end.

(** A world whose only stub, inside transaction "t1", has registered itself
    as peer "me". *)
Definition self_peer_world : World :=
  {[ 1%nat := mockPeerChaincode "me" 1%nat stub_in_t1 ]}.

(** ** Ordinary names and own properties *)

(** The string-keyed members that a [Map] inherits from [Map.prototype] and
    [Object.prototype]. *)
Definition inherited_names : list string :=
  ["constructor"; "__proto__"; "__defineGetter__"; "__defineSetter__";
   "__lookupGetter__"; "__lookupSetter__"; "hasOwnProperty"; "isPrototypeOf";
   "propertyIsEnumerable"; "toLocaleString"; "toString"; "valueOf";
   "clear"; "delete"; "entries"; "forEach"; "get"; "getOrInsert";
   "getOrInsertComputed"; "has"; "keys"; "set"; "size"; "values"].

Definition ordinary (k : string) : bool :=
  negb (JsObject.mem k inherited_names).

(** An operation that stores under ordinary names only.  The operations
    that only read or remove reach no inherited member that changes what
    they leave behind. *)
Definition ordinary_op (op : Operation) : bool :=
  match op with
  | OpPeerChaincode name _ => ordinary name
  | OpPutState key _ _ => ordinary key
  | OpSetEvent name _ => ordinary name
  | OpPutPrivateData collection key _ => ordinary collection && ordinary key
  | _ => true
  end.

(** The own property [k] of the state object. *)
Definition own_state (s : Stub) (k : string) : option Buffer :=
  JsObject.get (props (state s)) k.

(** The own property [k] of the object that
    [this.privateCollections[collection] || {}] gives. *)
Definition own_private (s : Stub) (collection k : string) : option Buffer :=
  JsObject.get (collection_or_empty s collection) k.

(** ** A composite-key encoder for the examples *)

(** The reserved low-value delimiter byte. *)
Definition delimiter : ascii := "000"%char.

Fixpoint contains_delimiter (a : string) : bool :=
  match a with
  | "" => false
  | String c a' => Ascii.eqb c delimiter || contains_delimiter a'
  end.

(** Modelled from the spec: the class CompositeKeys (src/CompositeKeys.ts) is
    not among the sources.  A composite key is "an object-type token and an
    ordered sequence of attribute strings, joined with a reserved low-value
    delimiter byte and terminated"; creating it fails when the object type
    is empty or a component contains the delimiter byte. *)
Definition example_createCompositeKey (objectType : string)
    (attributes : list string) : Outcome string :=
  if String.eqb objectType ""
     || contains_delimiter objectType
     || existsb contains_delimiter attributes
  then Thrown (Error "InvalidKeyComponent")
  else
    Returned
      (fold_left (fun k a => k ++ a ++ String delimiter "")
         attributes (objectType ++ String delimiter "")).

(** Modelled from the spec: the "maximum-Unicode-codepoint suffix", the
    bytes of U+10FFFF in UTF-8. *)
Definition example_MAX_UNICODE_RUNE_VALUE : string :=
  String "244"%char (String "143"%char (String "191"%char
    (String "191"%char ""))).

(** The composite key of ("doc", ["a"]), and a stub that stores one key
    that extends it by "x" and one that extends it by the sentinel followed
    by "x". *)
Definition doc_a_key : string :=
  "doc" ++ String delimiter ("a" ++ String delimiter "").

Definition stub_with_prefixed_keys : Stub :=
  run (new_ChaincodeMockStub "")
    [OpTransactionStart (Some "t1") None;
     OpPutState (doc_a_key ++ "x") "1" (ProtoTimestamp 1);
     OpPutState (doc_a_key ++ example_MAX_UNICODE_RUNE_VALUE ++ "x") "2"
       (ProtoTimestamp 2)].

(** ** Facts about the byte order *)

Lemma strcmp_le (a b : string) : (strcmp a b <= 0)%Z <-> lex_le a b.
Proof.
  revert b; induction a as [|c1 a IH]; intros [|c2 b]; simpl.
  - split; [constructor | lia].
  - split; [constructor | lia].
  - split; [lia | inversion 1].
  - destruct (N.ltb_spec (N_of_ascii c1) (N_of_ascii c2)) as [Hlt|Hge].
    + split; [intros _; now constructor | lia].
    + destruct (N.ltb_spec (N_of_ascii c2) (N_of_ascii c1)) as [Hgt|Hle].
      * split; [lia |].
        inversion 1; subst; lia.
      * assert (c1 = c2) as ->.
        { rewrite <- (ascii_N_embedding c1), <- (ascii_N_embedding c2).
          f_equal; lia. }
        rewrite IH. split; [now constructor |].
        inversion 1; subst; [lia | assumption].
Qed.

Lemma strcmp_ge (a b : string) : (strcmp a b >= 0)%Z <-> lex_le b a.
Proof.
  revert b; induction a as [|c1 a IH]; intros [|c2 b]; simpl.
  - split; [constructor | lia].
  - split; [lia | inversion 1].
  - split; [constructor | lia].
  - destruct (N.ltb_spec (N_of_ascii c1) (N_of_ascii c2)) as [Hlt|Hge].
    + split; [lia |]. inversion 1; subst; lia.
    + destruct (N.ltb_spec (N_of_ascii c2) (N_of_ascii c1)) as [Hgt|Hle].
      * split; [intros _; now constructor | lia].
      * assert (c1 = c2) as ->.
        { rewrite <- (ascii_N_embedding c1), <- (ascii_N_embedding c2).
          f_equal; lia. }
        rewrite IH. split; [now constructor |].
        inversion 1; subst; [lia | assumption].
Qed.

(** ** Facts about JavaScript objects *)

Module JsObjectFacts.
Import JsObject.

Section WithValues.
Context {V : Type}.
Implicit Types (o : t V) (k : string) (v : V).

Lemma get_set_eq o k v : get (set o k v) k = Some v.
Proof.
  induction o as [|[k' v'] o IH]; simpl.
  - now rewrite String.eqb_refl.
  - destruct (String.eqb k' k) eqn:E; simpl; rewrite E; auto.
Qed.

Lemma get_set_ne o k k' v : k <> k' -> get (set o k v) k' = get o k'.
Proof.
  intros Hne.
  induction o as [|[k0 v0] o IH]; simpl.
  - destruct (String.eqb_spec k k'); [contradiction | reflexivity].
  - destruct (String.eqb_spec k0 k) as [->|Hk]; simpl.
    + destruct (String.eqb_spec k k'); [contradiction | reflexivity].
    + now rewrite IH.
Qed.

Lemma get_delete_eq o k : get (delete o k) k = None.
Proof.
  induction o as [|[k' v'] o IH]; simpl; [reflexivity |].
  destruct (String.eqb k' k) eqn:E; simpl; [assumption |].
  now rewrite E.
Qed.

Lemma get_delete_ne o k k' : k <> k' -> get (delete o k) k' = get o k'.
Proof.
  intros Hne.
  induction o as [|[k0 v0] o IH]; simpl; [reflexivity |].
  destruct (String.eqb_spec k0 k) as [->|Hk]; simpl.
  - destruct (String.eqb_spec k k'); [contradiction | assumption].
  - now rewrite IH.
Qed.

Lemma In_keys_get o k : In k (map fst o) <-> is_Some (get o k).
Proof.
  induction o as [|[k' v'] o IH]; simpl.
  - split; [tauto | intros [x Hx]; discriminate].
  - destruct (String.eqb_spec k' k) as [->|Hk].
    + split; [intros _; now eexists | now left].
    + rewrite <- IH. split; [intros [?|?]; [contradiction | assumption] | now right].
Qed.

Lemma keys_set o k v :
  map fst (set o k v)
  = if mem k (map fst o) then map fst o else (map fst o ++ [k])%list.
Proof.
  induction o as [|[k' v'] o IH]; simpl; [reflexivity |].
  destruct (String.eqb k' k) eqn:E; simpl; [reflexivity |].
  rewrite IH. now destruct (mem k (map fst o)).
Qed.

Lemma keys_delete o k :
  map fst (delete o k)
  = List.filter (fun k' => negb (String.eqb k' k)) (map fst o).
Proof.
  induction o as [|[k' v'] o IH]; simpl; [reflexivity |].
  destruct (String.eqb k' k); simpl; now rewrite IH.
Qed.

End WithValues.

Lemma mem_In k l : mem k l = true <-> In k l.
Proof.
  induction l as [|k' l IH]; simpl; [split; [discriminate | tauto] |].
  rewrite orb_true_iff, IH.
  destruct (String.eqb_spec k' k); intuition congruence.
Qed.

Lemma nodupb_NoDup l : nodupb l = true <-> List.NoDup l.
Proof.
  induction l as [|k l IH]; simpl.
  - split; [constructor | reflexivity].
  - rewrite andb_true_iff, negb_true_iff, IH, List.NoDup_cons_iff.
    rewrite <- mem_In. destruct (mem k l); intuition congruence.
Qed.

Lemma wf_empty {V} : wf (@empty V).
Proof. reflexivity. Qed.

Lemma wf_set {V} (o : t V) k v : wf o -> wf (set o k v).
Proof.
  unfold wf. rewrite !nodupb_NoDup, keys_set.
  destruct (mem k (map fst o)) eqn:E; [tauto |].
  intros Hnd. apply List.NoDup_app; [assumption | repeat constructor; simpl; tauto |].
  intros x Hx [<-|[]]. apply mem_In in Hx. congruence.
Qed.

Lemma wf_delete {V} (o : t V) k : wf o -> wf (delete o k).
Proof.
  unfold wf. rewrite !nodupb_NoDup, keys_delete.
  apply List.NoDup_filter.
Qed.

Lemma insert_index_perm k l : Permutation (insert_index k l) (k :: l).
Proof.
  induction l as [|k' l IH]; simpl; [reflexivity |].
  destruct (index_val k <=? index_val k')%N; [reflexivity |].
  rewrite IH. apply perm_swap.
Qed.

Lemma sort_indices_perm l : Permutation (sort_indices l) l.
Proof.
  induction l as [|k l IH]; simpl; [reflexivity |].
  rewrite insert_index_perm. now constructor.
Qed.

Lemma insert_index_sorted k l :
  Sorted (fun a b => (index_val a <= index_val b)%N) l ->
  Sorted (fun a b => (index_val a <= index_val b)%N) (insert_index k l).
Proof.
  induction 1 as [|k' l Hs IH Hhd]; simpl.
  - repeat constructor.
  - destruct (N.leb_spec (index_val k) (index_val k')).
    + repeat constructor; assumption.
    + constructor; [assumption |].
      destruct l as [|k'' l]; simpl in *.
      * constructor; lia.
      * destruct (index_val k <=? index_val k'')%N; constructor; try lia.
        now inversion Hhd.
  Qed.

Lemma sort_indices_sorted l :
  Sorted (fun a b => (index_val a <= index_val b)%N) (sort_indices l).
Proof.
  induction l; simpl; [constructor | now apply insert_index_sorted].
Qed.

Lemma filter_partition_perm (f : string -> bool) l :
  Permutation (List.filter f l ++ List.filter (fun x => negb (f x)) l) l.
Proof.
  induction l as [|x l IH]; simpl; [reflexivity |].
  destruct (f x); simpl.
  - now constructor.
  - rewrite <- Permutation_middle. now constructor.
Qed.

Lemma Object_keys_perm {V} (o : t V) : Permutation (Object_keys o) (map fst o).
Proof.
  unfold Object_keys. rewrite sort_indices_perm. apply filter_partition_perm.
Qed.

Lemma In_Object_keys {V} (o : t V) k :
  In k (Object_keys o) <-> is_Some (get o k).
Proof.
  rewrite <- In_keys_get. split; apply Permutation_in;
    [| symmetry]; apply Object_keys_perm.
Qed.

Lemma Object_keys_NoDup {V} (o : t V) : wf o -> List.NoDup (Object_keys o).
Proof.
  unfold wf. rewrite nodupb_NoDup.
  apply Permutation_NoDup. symmetry. apply Object_keys_perm.
Qed.

End JsObjectFacts.

(** ** The state store *)

Section StateStore.
Import JsObject JsObjectFacts.

Lemma in_range_spec startKey endKey k :
  in_range startKey endKey k = true <->
  (lex_le startKey k /\ lex_le k endKey) \/ (startKey = "" /\ endKey = "").
Proof.
  unfold in_range.
  rewrite orb_true_iff, !andb_true_iff, Z.geb_le, Z.leb_le.
  rewrite <- Z.ge_le_iff, strcmp_ge, strcmp_le.
  now rewrite !String.eqb_eq.
Qed.

Lemma range_items_keys o startKey endKey :
  map kv_key (range_items o startKey endKey)
  = List.filter (in_range startKey endKey) (Object_keys o).
Proof.
  unfold range_items. rewrite List.map_map. simpl. apply List.map_id.
Qed.

Lemma step_wf s op : wf (props (state s)) -> wf (props (state (step s op))).
Proof.
  intros Hwf. destruct op; simpl; try assumption.
  - unfold getFunctionAndParameters.
    destruct (getStringArgs s) as [l|]; [| assumption].
    now destruct (1 <=? length l)%nat.
  - unfold putState. destruct (txID_is_empty s); [assumption |].
    unfold history_push; simpl.
    destruct (history s !! key) eqn:E; simpl; rewrite ?E, ?lookup_insert_eq;
      simpl; now apply wf_set.
  - unfold deleteState, history_push.
    destruct (history s !! key); simpl; [now apply wf_delete | assumption].
  - unfold setEvent. now destruct (txID_is_empty s).
  - unfold putPrivateData. destruct (txID_is_empty s); [assumption |].
    destruct (privateCollections s !! collection) eqn:E; simpl;
      rewrite ?E, ?lookup_insert_eq; assumption.
  - unfold deletePrivateData.
    destruct (get (collection_or_empty s collection) key); [| assumption].
    now destruct (privateCollections s !! collection).
Qed.

(** Every stub a test can build holds one property per key. *)
Lemma reachable_wf s : reachable s -> wf (props (state s)).
Proof. induction 1; [reflexivity | now apply step_wf]. Qed.

End StateStore.

(** C1, as the code has it: [getStateByRange] returns exactly the keys [k]
    that are own properties of the state object and satisfy
    [startKey <= k <= endKey] in byte-wise lexicographic order (all of them
    when both bounds are empty), each key once and with the value stored
    under it, in the order in which [Object.keys] enumerates the state
    object: array-index keys by number, then the other keys in the order in
    which their properties were created. *)
Theorem getStateByRange_live_keys (s : Stub) (startKey endKey : string) :
  JsObject.wf (props (state s)) ->
  let items := state_items (getStateByRange s startKey endKey) in
  (forall k, In k (map kv_key items) <->
     is_Some (own_state s k) /\
     ((lex_le startKey k /\ lex_le k endKey) \/ (startKey = "" /\ endKey = "")))
  /\ List.NoDup (map kv_key items)
  /\ (forall kv, In kv items ->
        kv_value kv = own_state s (kv_key kv) /\ is_Some (kv_value kv))
  /\ map kv_key items
     = List.filter (in_range startKey endKey)
         (JsObject.Object_keys (props (state s))).
Proof.
  intros Hwf items. subst items. cbn [getStateByRange state_items].
  rewrite range_items_keys. unfold own_state.
  split; [| split; [| split]].
  - intros k. rewrite List.filter_In, JsObjectFacts.In_Object_keys.
    rewrite in_range_spec. reflexivity.
  - apply List.NoDup_filter. now apply JsObjectFacts.Object_keys_NoDup.
  - intros kv Hkv. unfold range_items in Hkv.
    apply List.in_map_iff in Hkv as (k & <- & Hin). split; [reflexivity |].
    apply List.filter_In in Hin as [Hin _].
    now apply JsObjectFacts.In_Object_keys in Hin.
  - reflexivity.
Qed.

Lemma getStateByRange_live_keys_witness :
  map kv_key (state_items (getStateByRange stub_b_then_a "a" "b")) = ["b"; "a"]
  /\ List.NoDup (map kv_key (state_items (getStateByRange stub_b_then_a "a" "b"))).
Proof.
  split; [reflexivity |].
  apply (getStateByRange_live_keys stub_b_then_a "a" "b"). reflexivity.
Defined.

(** C1, as stated, fails: after writing "b" and then "a" the scan over all
    keys yields "b" before "a", which is not ascending byte order. *)
Lemma getStateByRange_not_ascending :
  map kv_key (state_items (getStateByRange stub_b_then_a "" "")) = ["b"; "a"]
  /\ ~ Sorted lex_le (map kv_key (state_items (getStateByRange stub_b_then_a "" ""))).
Proof.
  split; [reflexivity |].
  replace (map kv_key (state_items (getStateByRange stub_b_then_a "" "")))
    with ["b"; "a"] by reflexivity.
  intros Hs. inversion Hs as [|x l _ Hhd]; subst.
  inversion Hhd as [|y l' Hle]; subst.
  inversion Hle as [| c1 c2 a b Hlt | c a b Htl]; subst.
  vm_compute in Hlt. discriminate.
Qed.

(** ** Writes, deletes and the history *)

Lemma putState_accepted (s : Stub) key value now :
  txID_is_empty s = false ->
  putState s key value now
  = (Returned tt,
     set_history
       (<[key := (default [] (history s !! key) ++ [put_record s value now])%list]>
          (history s))
       (set_state (set_prop (state s) key value) s)).
Proof.
  intros Htx. unfold putState, history_push. rewrite Htx. simpl.
  destruct (history s !! key) as [log|] eqn:E; simpl.
  - rewrite E. reflexivity.
  - rewrite lookup_insert_eq. simpl. now rewrite insert_insert_eq.
Qed.

Lemma putState_rejected (s : Stub) key value now :
  txID s = Some "" ->
  putState s key value now = (Rejected no_transaction_putState, s).
Proof. intros Htx. unfold putState, txID_is_empty. now rewrite Htx. Qed.

Lemma deleteState_with_history (s : Stub) key now log :
  history s !! key = Some log ->
  deleteState s key now
  = (Returned tt,
     set_state (delete_prop (state s) key)
       (set_history
          (<[key := (log ++ [delete_record s key now])%list]> (history s)) s)).
Proof. intros Hlog. unfold deleteState, history_push. now rewrite Hlog. Qed.




(** The scenario of the spec: two writes of "k1" inside "t1" leave two
    records, oldest first, and the last value is read after the transaction
    has ended. *)
Example history_scenario :
  let s :=
    run (new_ChaincodeMockStub "")
      [OpTransactionStart (Some "t1") None;
       OpPutState "k1" "v1" (ProtoTimestamp 1);
       OpPutState "k1" "v2" (ProtoTimestamp 2);
       OpTransactionEnd (Some "t1")] in
  option_map (map km_value) (history s !! "k1") = Some [Some "v1"; Some "v2"]
  /\ getState s "k1" = Some "v2".
Proof. split; reflexivity. Qed.


Lemma deleteState_returns_iff (s : Stub) key now :
  fst (deleteState s key now) = Returned tt <-> is_Some (history s !! key).
Proof.
  unfold deleteState, history_push.
  destruct (history s !! key) as [log|]; simpl.
  - split; [intros _; now eexists | reflexivity].
  - split; [discriminate | intros [x Hx]; discriminate].
Qed.

(** A key that no [putState] of the trace names has no history entry. *)
Lemma never_written_no_history (cert key : string) (ops : list Operation) :
  forallb (fun op => match op with
                     | OpPutState k _ _ => negb (String.eqb k key)
                     | _ => true
                     end) ops = true ->
  history (run (new_ChaincodeMockStub cert) ops) !! key = None.
Proof.
  unfold run.
  assert (Hgen : forall s, history s !! key = None ->
            forallb (fun op => match op with
                               | OpPutState k _ _ => negb (String.eqb k key)
                               | _ => true
                               end) ops = true ->
            history (fold_left step ops s) !! key = None).
  { induction ops as [|op ops IH]; intros s Hs Hops; simpl in *; [assumption |].
    apply andb_true_iff in Hops as [Hop Hops]. apply IH; [| assumption].
    destruct op; simpl; try assumption.
    - unfold getFunctionAndParameters.
      destruct (getStringArgs s) as [l|]; [| assumption].
      now destruct (1 <=? length l)%nat.
    - apply negb_true_iff, String.eqb_neq in Hop.
      unfold putState. destruct (txID_is_empty s); [assumption |].
      unfold history_push; simpl.
      destruct (history s !! key0) eqn:E; simpl;
        rewrite ?E, ?lookup_insert_eq; simpl;
        rewrite ?lookup_insert_ne by assumption; assumption.
    - unfold deleteState, history_push.
      destruct (history s !! key0) eqn:E; simpl; [| assumption].
      destruct (decide (key0 = key)) as [->|Hne]; [congruence |].
      now rewrite lookup_insert_ne.
    - unfold setEvent. now destruct (txID_is_empty s).
    - unfold putPrivateData. destruct (txID_is_empty s); [assumption |].
      destruct (privateCollections s !! collection) eqn:E; simpl;
        rewrite ?E, ?lookup_insert_eq; assumption.
    - unfold deletePrivateData.
      destruct (JsObject.get (collection_or_empty s collection) key0);
        [| assumption].
      now destruct (privateCollections s !! collection). }
  apply Hgen. reflexivity.
Qed.

(** C4 at its failing input: a key that was never written has no history
    log, so [deleteState] throws on [this.history[key].push] before it
    returns, and no delete record exists afterwards. *)
Theorem deleteState_unwritten_key_no_record (key : string)
    (now : MockProtoTimestamp) :
  deleteState stub_in_t1 key now = (Thrown TypeError, stub_in_t1)
  /\ history (snd (deleteState stub_in_t1 key now)) !! key = None.
Proof. split; reflexivity. Qed.

(** C10: when the key has no history entry, [deleteState] does not return
    its resolved promise: pushing the delete record onto the missing log
    throws, and the stub is left as it was.  On any stub, [deleteState]
    returns exactly when the key has a history entry. *)
Theorem deleteState_unwritten_key_throws (s : Stub) (key : string)
    (now : MockProtoTimestamp) :
  history s !! key = None ->
  deleteState s key now = (Thrown TypeError, s)
  /\ forall s0 : Stub,
       fst (deleteState s0 key now) = Returned tt
       <-> is_Some (history s0 !! key).
Proof.
  intros Hnone. split.
  - unfold deleteState, history_push. now rewrite Hnone.
  - intros s0. apply deleteState_returns_iff.
Qed.

Lemma deleteState_unwritten_key_throws_witness :
  deleteState stub_after_t1 "k1" (ProtoTimestamp 1)
  = (Thrown TypeError, stub_after_t1).
Proof.
  apply (deleteState_unwritten_key_throws stub_after_t1 "k1" (ProtoTimestamp 1)).
  reflexivity.
Defined.



(** ** The argument list *)

(** C6 at its failing input: [getFunctionAndParameters] splices the array
    that the stub stores, so it drops the function name from the stored
    arguments and a second call returns another result. *)
Theorem getFunctionAndParameters_splices_args :
  let first := getFunctionAndParameters stub_with_args in
  let second := getFunctionAndParameters (snd first) in
  getArgs stub_with_args = Some ["fn"; "a"; "b"]
  /\ fst first = Returned {| params := ["a"; "b"]; fcn := "fn" |}
  /\ getArgs (snd first) = Some ["a"; "b"]
  /\ getStringArgs (snd first) = Some ["a"; "b"]
  /\ fst second = Returned {| params := ["b"]; fcn := "a" |}.
Proof. repeat split. Qed.

(** On a non-empty argument list the first call does return the first
    argument and the remaining ones; the stored list loses its head and
    nothing else of the stub changes. *)
Lemma getFunctionAndParameters_split (s : Stub) (f : string) (rest : list string) :
  getStringArgs s = Some (f :: rest) ->
  getFunctionAndParameters s
  = (Returned {| params := rest; fcn := f |}, set_args (Some rest) s).
Proof. intros Hargs. unfold getFunctionAndParameters. now rewrite Hargs. Qed.

(** ** Invoking a peer chaincode *)




(** The scenario of the spec: from a stub inside transaction "t1", invoking
    the registered peer "cc2" returns the peer's response, computed under
    "t1"; an unregistered name, or a channel under which nothing was
    registered, is not found; a peer registered as "cc2/ch" is found for
    channel "ch". *)
Example invokeChaincode_scenario :
  fst (invokeChaincode (fun _ => echo_txid) two_stub_world 1%nat "cc2" ["fn"; "x"] "")
  = Returned {| status := 200; message := ""; payload := "t1" |}
  /\ fst (invokeChaincode (fun _ => echo_txid) two_stub_world 1%nat "cc3" ["fn"] "")
     = Thrown (Error "Chaincode cc3 could not be found. Please create this using mockPeerChaincode.")
  /\ fst (invokeChaincode (fun _ => echo_txid) two_stub_world 1%nat "cc2" ["fn"] "ch")
     = Thrown (Error "Chaincode cc2/ch could not be found. Please create this using mockPeerChaincode.")
  /\ fst (invokeChaincode (fun _ => echo_txid) two_stub_world_ch 1%nat "cc2" ["fn"] "ch")
     = Returned {| status := 200; message := ""; payload := "t1" |}.
Proof. repeat split; vm_compute; reflexivity. Qed.

(** ** Partial composite keys *)

Lemma in_range_prefix (p m k : string) :
  in_range p (p ++ m) k = true -> has_prefix p k.
Proof.
  revert k. induction p as [|c p IH]; intros k Hk.
  - now exists k.
  - unfold in_range in Hk. simpl in Hk. rewrite orb_false_r in Hk.
    destruct k as [|c' k]; simpl in Hk; [discriminate |].
    destruct (N.ltb_spec (N_of_ascii c') (N_of_ascii c)); [discriminate |].
    destruct (N.ltb_spec (N_of_ascii c) (N_of_ascii c')); [discriminate |].
    assert (c' = c) as ->.
    { rewrite <- (ascii_N_embedding c'), <- (ascii_N_embedding c).
      f_equal; lia. }
    destruct (IH k) as [suffix ->].
    + unfold in_range. now rewrite Hk.
    + now exists suffix.
Qed.

Lemma in_range_all (k : string) : in_range "" "" k = true.
Proof. unfold in_range. simpl. apply orb_true_r. Qed.

Lemma lex_le_extend (p a : string) : lex_le p (p ++ a).
Proof. induction p as [|c p IH]; simpl; now constructor. Qed.

Lemma lex_le_app (p a b : string) : lex_le (p ++ a) (p ++ b) <-> lex_le a b.
Proof.
  induction p as [|c p IH]; simpl; [reflexivity |].
  rewrite <- IH. split.
  - inversion 1; subst; [lia | assumption].
  - now constructor.
Qed.

Lemma in_range_prefix_iff (p m k : string) :
  in_range p (p ++ m) k = true <->
  (exists suffix, k = p ++ suffix /\ lex_le suffix m) \/ (p = "" /\ m = "").
Proof.
  split.
  - intros Hk. destruct (in_range_prefix p m k Hk) as [suffix ->].
    apply in_range_spec in Hk as [[_ Hle] | [-> Hm]].
    + left. exists suffix. split; [reflexivity |]. now apply lex_le_app in Hle.
    + right. simpl in Hm. now split.
  - intros [(suffix & -> & Hle) | [-> ->]].
    + apply in_range_spec. left. split; [apply lex_le_extend |].
      now apply lex_le_app.
    + apply in_range_all.
Qed.

(** C8, as the code has it: [getStateByPartialCompositeKey] gives the
    result of the range scan from the composite key to the composite key
    followed by the maximum sentinel, and fails as the encoder fails.  The
    scan yields exactly the own keys of the state object that extend the
    composite key by a suffix not above the sentinel in byte order (every
    own key when the composite key and the sentinel are both empty). *)
Theorem getStateByPartialCompositeKey_is_range_scan
    (createCompositeKey : string -> list string -> Outcome string)
    (MAX_UNICODE_RUNE_VALUE : string)
    (s : Stub) (objectType : string) (attributes : list string) :
  match createCompositeKey objectType attributes with
  | Returned partialCompositeKey =>
      exists it : MockStateQueryIterator,
        getStateByPartialCompositeKey createCompositeKey
          MAX_UNICODE_RUNE_VALUE s objectType attributes
        = Returned it
        /\ it = getStateByRange s partialCompositeKey
                  (partialCompositeKey ++ MAX_UNICODE_RUNE_VALUE)
        /\ forall k,
             In k (map kv_key (state_items it)) <->
             is_Some (own_state s k)
             /\ ((exists suffix,
                    k = partialCompositeKey ++ suffix
                    /\ lex_le suffix MAX_UNICODE_RUNE_VALUE)
                 \/ (partialCompositeKey = "" /\ MAX_UNICODE_RUNE_VALUE = ""))
  | Rejected r =>
      getStateByPartialCompositeKey createCompositeKey
        MAX_UNICODE_RUNE_VALUE s objectType attributes = Rejected r
  | Thrown e =>
      getStateByPartialCompositeKey createCompositeKey
        MAX_UNICODE_RUNE_VALUE s objectType attributes = Thrown e
  end.
Proof.
  unfold getStateByPartialCompositeKey.
  destruct (createCompositeKey objectType attributes) as [pk|r|e];
    try reflexivity.
  eexists. split; [reflexivity |]. split; [reflexivity |].
  intros k. cbn [getStateByRange state_items].
  rewrite range_items_keys, List.filter_In, JsObjectFacts.In_Object_keys.
  rewrite in_range_prefix_iff. reflexivity.
Qed.

(** C8, as stated, fails: the stub stores two keys that share the composite
    key of ("doc", ["a"]) as a prefix, and the partial-key scan yields only
    the one that does not continue above the sentinel. *)
Lemma partial_scan_misses_prefixed_key :
  example_createCompositeKey "doc" ["a"] = Returned doc_a_key
  /\ has_prefix doc_a_key (doc_a_key ++ example_MAX_UNICODE_RUNE_VALUE ++ "x")
  /\ getState stub_with_prefixed_keys
       (doc_a_key ++ example_MAX_UNICODE_RUNE_VALUE ++ "x") = Some "2"
  /\ getStateByPartialCompositeKey example_createCompositeKey
       example_MAX_UNICODE_RUNE_VALUE stub_with_prefixed_keys "doc" ["a"]
     = Returned
         {| state_items :=
              [{| kv_key := doc_a_key ++ "x"; kv_value := Some "1" |}] |}.
Proof.
  split; [reflexivity |]. split; [now eexists |].
  split; vm_compute; reflexivity.
Qed.

(** ** Private collections *)

Section Isolation.

Variable c1 : string.

Lemma erase_txID_is_empty s : txID_is_empty (erase c1 s) = txID_is_empty s.
Proof. reflexivity. Qed.

Lemma erase_getState s k : getState (erase c1 s) k = getState s k.
Proof. reflexivity. Qed.

Lemma erase_getPrivateData s c2 k :
  c1 <> c2 -> getPrivateData (erase c1 s) c2 k = getPrivateData s c2 k.
Proof.
  intros Hne. unfold getPrivateData, collection_or_empty, erase; simpl.
  now rewrite lookup_delete_ne.
Qed.

Lemma erase_putPrivateData_same s key value :
  erase c1 (snd (putPrivateData s c1 key value)) = erase c1 s.
Proof.
  unfold putPrivateData. destruct (txID_is_empty s); [reflexivity |].
  destruct (privateCollections s !! c1) eqn:E; simpl.
  - rewrite E. unfold erase; simpl. now rewrite delete_insert_eq.
  - rewrite lookup_insert_eq. unfold erase; simpl.
    now rewrite !delete_insert_eq.
Qed.

Lemma erase_putPrivateData_other s c key value :
  c <> c1 ->
  erase c1 (snd (putPrivateData s c key value))
  = snd (putPrivateData (erase c1 s) c key value).
Proof.
  intros Hne. unfold putPrivateData. rewrite erase_txID_is_empty.
  destruct (txID_is_empty s); [reflexivity |].
  unfold erase at 2 3; simpl. rewrite lookup_delete_ne by congruence.
  destruct (privateCollections s !! c) eqn:E; simpl.
  - rewrite E, lookup_delete_ne, E by congruence. unfold erase; simpl.
    now rewrite delete_insert_ne by congruence.
  - rewrite !lookup_insert_eq. unfold erase; simpl.
    now rewrite !delete_insert_ne by congruence.
Qed.

Lemma erase_deletePrivateData_same s key :
  erase c1 (snd (deletePrivateData s c1 key)) = erase c1 s.
Proof.
  unfold deletePrivateData.
  destruct (JsObject.get (collection_or_empty s c1) key); [| reflexivity].
  destruct (privateCollections s !! c1); [| reflexivity].
  unfold erase; simpl. now rewrite delete_insert_eq.
Qed.

Lemma erase_deletePrivateData_other s c key :
  c <> c1 ->
  erase c1 (snd (deletePrivateData s c key))
  = snd (deletePrivateData (erase c1 s) c key).
Proof.
  intros Hne. unfold deletePrivateData, collection_or_empty.
  unfold erase at 2 3 4; simpl. rewrite lookup_delete_ne by congruence.
  destruct (privateCollections s !! c) eqn:E; simpl; [| reflexivity].
  destruct (JsObject.get (props s0) key); [| reflexivity].
  unfold erase; simpl. now rewrite delete_insert_ne by congruence.
Qed.

(** An operation on [c1] is invisible once [c1] is forgotten, and every
    other operation does not look at [c1]. *)
Lemma erase_step s op :
  erase c1 (step s op)
  = if writes_collection c1 op then erase c1 s else step (erase c1 s) op.
Proof.
  destruct op; simpl; try reflexivity.
  - unfold getFunctionAndParameters, getStringArgs. simpl.
    destruct (args s) as [[|f rest]|]; reflexivity.
  - unfold putState. rewrite erase_txID_is_empty.
    destruct (txID_is_empty s); [reflexivity |].
    unfold history_push; simpl.
    destruct (history s !! key) eqn:E; simpl;
      rewrite ?E, ?lookup_insert_eq; reflexivity.
  - unfold deleteState, history_push; simpl.
    now destruct (history s !! key).
  - unfold setEvent. rewrite erase_txID_is_empty.
    now destruct (txID_is_empty s).
  - destruct (String.eqb_spec collection c1) as [->|Hne].
    + apply erase_putPrivateData_same.
    + now apply erase_putPrivateData_other.
  - destruct (String.eqb_spec collection c1) as [->|Hne].
    + apply erase_deletePrivateData_same.
    + now apply erase_deletePrivateData_other.
Qed.

Lemma erase_run ops : forall s,
  erase c1 (run s ops)
  = run (erase c1 s)
      (List.filter (fun op => negb (writes_collection c1 op)) ops).
Proof.
  unfold run. induction ops as [|op ops IH]; intros s; simpl; [reflexivity |].
  rewrite IH, erase_step.
  now destruct (writes_collection c1 op).
Qed.

End Isolation.



(** ** Further properties of the private collections *)

Lemma collection_or_empty_deletePrivateData (s : Stub) (collection key c : string) :
  collection_or_empty (snd (deletePrivateData s collection key)) c
  = collection_or_empty s c.
Proof.
  unfold deletePrivateData.
  destruct (JsObject.get (collection_or_empty s collection) key); [| reflexivity].
  destruct (privateCollections s !! collection) as [m|] eqn:E; [| reflexivity].
  unfold collection_or_empty; simpl.
  destruct (decide (collection = c)) as [<-|Hne].
  - now rewrite lookup_insert_eq, E.
  - now rewrite lookup_insert_ne.
Qed.

(** X1: [deletePrivateData] removes nothing that can be read: it calls
    [Map.prototype.delete] on an object whose values are own properties, so
    every [getPrivateData] and every [getPrivateDataByRange] gives the same
    result before and after. *)
Theorem deletePrivateData_removes_nothing (s : Stub)
    (collection key c k startKey endKey : string) :
  let s' := snd (deletePrivateData s collection key) in
  getPrivateData s' c k = getPrivateData s c k
  /\ getPrivateDataByRange s' c startKey endKey
     = getPrivateDataByRange s c startKey endKey
  /\ getState s' k = getState s k.
Proof.
  intros s'. subst s'. unfold getPrivateData, getPrivateDataByRange.
  rewrite collection_or_empty_deletePrivateData. repeat split.
  unfold deletePrivateData.
  destruct (JsObject.get (collection_or_empty s collection) key); [| reflexivity].
  now destruct (privateCollections s !! collection).
Qed.

Lemma putPrivateData_accepted (s : Stub) (collection key : string) (value : Buffer) :
  txID_is_empty s = false ->
  putPrivateData s collection key value
  = (Returned tt,
     set_privateCollections
       (<[collection :=
            set_prop (default new_Map (privateCollections s !! collection))
              key value]> (privateCollections s)) s).
Proof.
  intros Htx. unfold putPrivateData. rewrite Htx.
  destruct (privateCollections s !! collection) as [m|] eqn:E; simpl.
  - now rewrite E.
  - rewrite lookup_insert_eq. simpl. now rewrite insert_insert_eq.
Qed.



(** ** The transaction gate *)

(** X3: once [mockTransactionEnd] has run, [putState], [putPrivateData] and
    [setEvent] are rejected and leave the stub as it is. *)
Theorem writes_rejected_after_transaction_end (uuid : option string) (s : Stub) :
  let idle := mockTransactionEnd uuid s in
  (forall key value now,
     putState idle key value now = (Rejected no_transaction_putState, idle))
  /\ (forall collection key value,
        putPrivateData idle collection key value
        = (Rejected no_transaction_putState, idle))
  /\ (forall name payload0,
        setEvent idle name payload0 = (Rejected no_transaction_setEvent, idle)).
Proof. repeat split. Qed.



(** X5: for an ordinary event name, when the transaction id is not the
    empty string, [setEvent] returns, [getEvent] then gives the payload, the
    other events are as before, and the events are still there after
    [mockTransactionEnd]. *)
Theorem setEvent_then_getEvent (s : Stub) (name : string) (payload0 : Buffer) :
  ordinary name = true ->
  txID_is_empty s = false ->
  let s' := snd (setEvent s name payload0) in
  fst (setEvent s name payload0) = Returned tt
  /\ getEvent s' name = Some payload0
  /\ (forall n, n <> name -> getEvent s' n = getEvent s n)
  /\ (forall uuid n, getEvent (mockTransactionEnd uuid s') n = getEvent s' n).
Proof.
  intros _ Htx s'. subst s'. unfold setEvent. rewrite Htx. cbn [fst snd].
  unfold getEvent; simpl. split; [reflexivity |]. split.
  - apply lookup_insert_eq.
  - split; [| reflexivity]. intros n Hn. now rewrite lookup_insert_ne.
Qed.

Lemma setEvent_then_getEvent_witness :
  getEvent (snd (setEvent stub_in_t1 "created" "payload")) "created"
  = Some "payload".
Proof.
  apply (setEvent_then_getEvent stub_in_t1 "created" "payload"); reflexivity.
Defined.

(** ** Invariants of the history *)

Lemma run_app (s : Stub) (ops ops' : list Operation) :
  run s (ops ++ ops') = run (run s ops) ops'.
Proof. unfold run. apply List.fold_left_app. Qed.

Lemma run_invariant (P : Stub -> Prop) :
  (forall s op, P s -> P (step s op)) ->
  forall ops s, P s -> P (run s ops).
Proof.
  intros Hstep. unfold run.
  induction ops as [|op ops IH]; intros s Hs; simpl; auto.
Qed.

(** How one operation changes the state and the history: only an accepted
    [putState] and a [deleteState] of a key with a log change them. *)
Lemma step_state_history (s : Stub) (op : Operation) :
  (state (step s op) = state s /\ history (step s op) = history s)
  \/ (exists key value now,
        op = OpPutState key value now /\ txID_is_empty s = false
        /\ state (step s op) = set_prop (state s) key value
        /\ history (step s op)
           = <[key := (default [] (history s !! key)
                       ++ [put_record s value now])%list]> (history s))
  \/ (exists key now log,
        op = OpDeleteState key now /\ history s !! key = Some log
        /\ state (step s op) = delete_prop (state s) key
        /\ history (step s op)
           = <[key := (log ++ [delete_record s key now])%list]> (history s)).
Proof.
  destruct op; try (left; split; reflexivity).
  - left. simpl. unfold getFunctionAndParameters.
    destruct (getStringArgs s) as [[|f rest]|]; split; reflexivity.
  - destruct (txID_is_empty s) eqn:Htx.
    + left. simpl. unfold putState. rewrite Htx. split; reflexivity.
    + right; left. exists key, value, now. simpl.
      rewrite putState_accepted by assumption. repeat split; assumption.
  - destruct (history s !! key) as [log|] eqn:Hlog.
    + right; right. exists key, now, log. simpl.
      rewrite (deleteState_with_history s key now log) by assumption.
      repeat split; assumption.
    + left. simpl. unfold deleteState, history_push. rewrite Hlog.
      split; reflexivity.
  - left. simpl. unfold setEvent. destruct (txID_is_empty s); split; reflexivity.
  - left. simpl. unfold putPrivateData.
    destruct (txID_is_empty s); [split; reflexivity |].
    destruct (privateCollections s !! collection) eqn:E; simpl;
      rewrite ?E, ?lookup_insert_eq; split; reflexivity.
  - left. simpl. unfold deletePrivateData.
    destruct (JsObject.get (collection_or_empty s collection) key);
      [| split; reflexivity].
    destruct (privateCollections s !! collection); split; reflexivity.
Qed.

Lemma step_history_extends (s : Stub) (op : Operation) (k : string)
    (log : list KeyModification) :
  history s !! k = Some log ->
  exists suffix, history (step s op) !! k = Some (log ++ suffix)%list.
Proof.
  intros Hlog.
  destruct (step_state_history s op)
    as [[_ Hh] | [(key & value & now & _ & _ & _ & Hh)
                 | (key & now & log0 & _ & Hlog0 & _ & Hh)]];
    rewrite Hh.
  - exists []. now rewrite List.app_nil_r.
  - destruct (decide (key = k)) as [->|Hne].
    + rewrite lookup_insert_eq, Hlog. simpl. now eexists.
    + rewrite lookup_insert_ne by assumption.
      exists []. now rewrite List.app_nil_r.
  - destruct (decide (key = k)) as [->|Hne].
    + rewrite lookup_insert_eq. rewrite Hlog in Hlog0.
      injection Hlog0 as <-. now eexists.
    + rewrite lookup_insert_ne by assumption.
      exists []. now rewrite List.app_nil_r.
Qed.

(** X6: the history is append-only: whatever operations run on a stub, the
    log of a key that has one is still there afterwards and starts with the
    records it had. *)
Theorem history_append_only (s : Stub) (ops : list Operation) (k : string)
    (log : list KeyModification) :
  history s !! k = Some log ->
  exists suffix, history (run s ops) !! k = Some (log ++ suffix)%list.
Proof.
  revert s log. unfold run.
  induction ops as [|op ops IH]; intros s log Hlog; simpl.
  - exists []. now rewrite List.app_nil_r.
  - destruct (step_history_extends s op k log Hlog) as [suffix1 H1].
    destruct (IH _ _ H1) as [suffix2 H2].
    exists (suffix1 ++ suffix2)%list. now rewrite List.app_assoc.
Qed.

Lemma history_append_only_witness :
  exists suffix,
    history
      (run (snd (putState stub_in_t1 "k1" "v1" (ProtoTimestamp 1)))
         [OpDeleteState "k1" (ProtoTimestamp 2); OpTransactionEnd (Some "t1")])
      !! "k1"
    = Some ([put_record stub_in_t1 "v1" (ProtoTimestamp 1)] ++ suffix)%list.
Proof.
  apply (history_append_only
           (snd (putState stub_in_t1 "k1" "v1" (ProtoTimestamp 1)))).
  reflexivity.
Defined.

Lemma replay_snoc (log : list KeyModification) (r : KeyModification) :
  replay (Some (log ++ [r])%list) = if is_delete r then None else km_value r.
Proof. unfold replay. now rewrite last_snoc. Qed.

Lemma step_replay (s : Stub) (op : Operation) :
  (forall k, getState s k = replay (history s !! k)) ->
  forall k, getState (step s op) k = replay (history (step s op) !! k).
Proof.
  intros Hinv k. unfold getState in *.
  destruct (step_state_history s op)
    as [[Hs Hh] | [(key & value & now & _ & _ & Hs & Hh)
                  | (key & now & log & _ & _ & Hs & Hh)]];
    rewrite Hs, Hh; [apply Hinv | |]; simpl;
    (destruct (decide (key = k)) as [->|Hne];
     [ rewrite lookup_insert_eq, replay_snoc; simpl
     | rewrite lookup_insert_ne by assumption ]).
  - apply JsObjectFacts.get_set_eq.
  - rewrite JsObjectFacts.get_set_ne by assumption. apply Hinv.
  - apply JsObjectFacts.get_delete_eq.
  - rewrite JsObjectFacts.get_delete_ne by assumption. apply Hinv.
Qed.

Lemma built_replay (cert : string) (ops : list Operation) (k : string) :
  getState (run (new_ChaincodeMockStub cert) ops) k
  = replay (history (run (new_ChaincodeMockStub cert) ops) !! k).
Proof.
  revert k.
  apply (run_invariant (fun s => forall k, getState s k = replay (history s !! k))).
  - apply step_replay.
  - intros k. reflexivity.
Qed.

(** X7: on every stub built from a fresh one by operations that store
    under ordinary names, the history decides the live state of an ordinary
    key: the key reads the value of the last record of its log when that
    record is a write, and is absent when the record is a delete or there
    is no log.  So a live ordinary key always has a log, and [deleteState]
    of it returns. *)
Theorem state_is_replay_of_history (cert : string) (ops : list Operation)
    (k : string) (now : MockProtoTimestamp) :
  forallb ordinary_op ops = true ->
  ordinary k = true ->
  let s := run (new_ChaincodeMockStub cert) ops in
  getState s k = replay (history s !! k)
  /\ (getState s k = None \/ fst (deleteState s k now) = Returned tt).
Proof.
  intros _ _ s. subst s. split; [apply built_replay |].
  rewrite built_replay.
  destruct (history (run (new_ChaincodeMockStub cert) ops) !! k) as [log|] eqn:E.
  - right. apply deleteState_returns_iff. rewrite E. now eexists.
  - now left.
Qed.

Lemma state_is_replay_of_history_witness :
  getState stub_b_then_a "a" = replay (history stub_b_then_a !! "a").
Proof.
  apply (state_is_replay_of_history ""
           [OpTransactionStart (Some "t1") None;
            OpPutState "b" "1" (ProtoTimestamp 1);
            OpPutState "a" "2" (ProtoTimestamp 2)]
           "a" (ProtoTimestamp 3));
    reflexivity.
Defined.

(** X8: a write or a delete of an ordinary key leaves every other key
    alone: its value and its history are as before, and so is every private
    collection. *)
Theorem state_writes_frame (s : Stub) (key : string) (value : Buffer)
    (now : MockProtoTimestamp) (k : string) :
  ordinary key = true ->
  k <> key ->
  let written := snd (putState s key value now) in
  let deleted := snd (deleteState s key now) in
  getState written k = getState s k
  /\ history written !! k = history s !! k
  /\ getState deleted k = getState s k
  /\ history deleted !! k = history s !! k
  /\ privateCollections written = privateCollections s
  /\ privateCollections deleted = privateCollections s.
Proof.
  intros _ Hne written deleted. subst written deleted.
  change (snd (putState s key value now)) with (step s (OpPutState key value now)).
  change (snd (deleteState s key now)) with (step s (OpDeleteState key now)).
  assert (Hframe : forall op key0,
            (op = OpPutState key0 value now \/ op = OpDeleteState key0 now) ->
            k <> key0 ->
            getState (step s op) k = getState s k
            /\ history (step s op) !! k = history s !! k).
  { intros op key0 Hop Hk. unfold getState.
    destruct (step_state_history s op)
      as [[Hs Hh] | [(key1 & value1 & now1 & Heq & _ & Hs & Hh)
                    | (key1 & now1 & log & Heq & _ & Hs & Hh)]];
      rewrite Hs, Hh; [split; reflexivity | |];
      (assert (key1 = key0) as -> by (destruct Hop; congruence));
      simpl; rewrite lookup_insert_ne by congruence.
    - now rewrite JsObjectFacts.get_set_ne by congruence.
    - now rewrite JsObjectFacts.get_delete_ne by congruence. }
  destruct (Hframe (OpPutState key value now) key) as [H1 H2]; auto.
  destruct (Hframe (OpDeleteState key now) key) as [H3 H4]; auto.
  repeat split; try assumption.
  - simpl. unfold putState. destruct (txID_is_empty s); [reflexivity |].
    unfold history_push; simpl.
    destruct (history s !! key) eqn:E; simpl; rewrite ?E, ?lookup_insert_eq;
      reflexivity.
  - simpl. unfold deleteState, history_push.
    now destruct (history s !! key).
Qed.

Lemma state_writes_frame_witness :
  getState (snd (putState stub_b_then_a "a" "3" (ProtoTimestamp 3))) "b"
  = getState stub_b_then_a "b".
Proof.
  apply (state_writes_frame stub_b_then_a "a" "3" (ProtoTimestamp 3) "b");
    [reflexivity | discriminate].
Defined.

(** ** Repeated calls of getFunctionAndParameters *)

Lemma skipn_nth_split {A} (n : nat) (l : list A) (d : A) :
  match skipn n l with
  | [] => nth n l d = d /\ skipn (S n) l = []
  | x :: r => nth n l d = x /\ skipn (S n) l = r
  end.
Proof.
  revert l. induction n as [|n IH]; intros [|y l]; simpl; auto.
  apply (IH l).
Qed.

Lemma step_getFunctionAndParameters (s : Stub) (l : list string) :
  getStringArgs s = Some l ->
  getStringArgs (step s OpFunctionAndParameters) = Some (skipn 1 l).
Proof.
  intros Hargs. simpl. unfold getFunctionAndParameters. rewrite Hargs.
  destruct l as [|f rest]; [exact Hargs | reflexivity].
Qed.

Lemma run_getFunctionAndParameters (n : nat) : forall (s : Stub) (l : list string),
  getStringArgs s = Some l ->
  getStringArgs (run s (repeat OpFunctionAndParameters n)) = Some (skipn n l).
Proof.
  induction n as [|n IH]; intros s l Hargs; [exact Hargs |].
  change (run s (repeat OpFunctionAndParameters (S n)))
    with (run (step s OpFunctionAndParameters) (repeat OpFunctionAndParameters n)).
  rewrite (IH _ (skipn 1 l)) by (now apply step_getFunctionAndParameters).
  f_equal. destruct l as [|f rest]; [now destruct n | reflexivity].
Qed.

(** X9: every call of [getFunctionAndParameters] consumes one stored
    argument: after [n] calls on a stub that stores the list [l], the stored
    list is [l] without its first [n] elements, and the next call returns
    the element of index [n] as function name (the empty string when the
    list is used up) and the elements after it as parameters. *)
Theorem getFunctionAndParameters_nth_call (s : Stub) (l : list string) (n : nat) :
  getStringArgs s = Some l ->
  let sn := run s (repeat OpFunctionAndParameters n) in
  getStringArgs sn = Some (skipn n l)
  /\ fst (getFunctionAndParameters sn)
     = Returned {| params := skipn (S n) l; fcn := nth n l "" |}.
Proof.
  intros Hargs sn.
  assert (Hn : getStringArgs sn = Some (skipn n l))
    by (now apply run_getFunctionAndParameters).
  split; [exact Hn |].
  unfold getFunctionAndParameters. rewrite Hn.
  pose proof (skipn_nth_split n l "") as Hsplit.
  destruct (skipn n l) as [|x r]; destruct Hsplit as [-> ->]; reflexivity.
Qed.

Lemma getFunctionAndParameters_nth_call_witness :
  fst (getFunctionAndParameters
         (run stub_with_args (repeat OpFunctionAndParameters 1)))
  = Returned {| params := skipn 2 ["fn"; "a"; "b"];
                fcn := nth 1 ["fn"; "a"; "b"] "" |}.
Proof.
  apply (getFunctionAndParameters_nth_call stub_with_args ["fn"; "a"; "b"] 1).
  reflexivity.
Defined.

(** ** The lifecycle of a chaincode call *)

Lemma ended_is_idle (w : World) (this : StubId) (uuid : option string) :
  idle (update_stub this (mockTransactionEnd uuid) w !!! this).
Proof.
  unfold update_stub. rewrite lookup_total_insert_eq. repeat split.
Qed.

(** X10: [mockInit] and [mockInvoke] hand the chaincode a stub that is
    inside the transaction: it has the given id, arguments and transient
    map, the placeholder proposal and a timestamp.  When the chaincode
    returns a response, the transaction is ended and the stub is idle; when
    the chaincode fails, the failure is passed on and the world stays as the
    chaincode left it, with no transaction end. *)
Theorem chaincode_call_lifecycle (cc : StubId -> ChaincodeInterface)
    (w : World) (this : StubId) (uuid : option string)
    (args0 : list string) (transient : option StateMap) :
  exists w0 : World,
    (getTxID (w0 !!! this) = uuid
     /\ getArgs (w0 !!! this) = Some args0
     /\ getTransient (w0 !!! this) = transient
     /\ getSignedProposal (w0 !!! this) = js_val sp_placeholder
     /\ getTxTimestamp (w0 !!! this) = Returned new_Timestamp)
    /\ match Invoke (cc this) this w0 with
       | (Returned res, w3) =>
           fst (mockInvoke cc w this uuid args0 transient) = Returned res
           /\ idle (snd (mockInvoke cc w this uuid args0 transient) !!! this)
       | (failure, w3) =>
           mockInvoke cc w this uuid args0 transient = (failure, w3)
       end
    /\ match Init (cc this) this w0 with
       | (Returned res, w3) =>
           fst (mockInit cc w this uuid args0 transient) = Returned res
           /\ idle (snd (mockInit cc w this uuid args0 transient) !!! this)
       | (failure, w3) =>
           mockInit cc w this uuid args0 transient = (failure, w3)
       end.
Proof.
  exists (update_stub this (mockTransactionStart uuid transient)
            (update_stub this (set_args (Some args0)) w)).
  split; [| split].
  - unfold update_stub. rewrite !lookup_total_insert_eq. repeat split.
  - unfold mockInvoke.
    destruct (Invoke (cc this) this _) as [[res|r|e] w3]; try reflexivity.
    split; [reflexivity | apply ended_is_idle].
  - unfold mockInit.
    destruct (Init (cc this) this _) as [[res|r|e] w3]; try reflexivity.
    split; [reflexivity | apply ended_is_idle].
Qed.

(** X11: [mockInvokeWithSignedProposal] runs the chaincode on a stub that
    shows the given signed proposal and no transient map; it ends the
    transaction when the chaincode returns a response, and only then. *)
Theorem mockInvokeWithSignedProposal_lifecycle
    (cc : StubId -> ChaincodeInterface) (w : World) (this : StubId)
    (uuid : option string) (args0 : list string) (sp : SignedProposal) :
  exists w0 : World,
    (getTxID (w0 !!! this) = uuid
     /\ getArgs (w0 !!! this) = Some args0
     /\ getTransient (w0 !!! this) = None
     /\ getSignedProposal (w0 !!! this) = js_val sp
     /\ getTxTimestamp (w0 !!! this) = Returned new_Timestamp)
    /\ match Invoke (cc this) this w0 with
       | (Returned res, w3) =>
           fst (mockInvokeWithSignedProposal cc w this uuid args0 sp)
           = Returned res
           /\ idle (snd (mockInvokeWithSignedProposal cc w this uuid args0 sp)
                    !!! this)
       | (failure, w3) =>
           mockInvokeWithSignedProposal cc w this uuid args0 sp = (failure, w3)
       end.
Proof.
  exists (update_stub this (set_signedProposal (js_val sp))
            (update_stub this (mockTransactionStart uuid None)
               (update_stub this (set_args (Some args0)) w))).
  split.
  - unfold update_stub. rewrite !lookup_total_insert_eq. repeat split.
  - unfold mockInvokeWithSignedProposal.
    destruct (Invoke (cc this) this _) as [[res|r|e] w3]; try reflexivity.
    split; [reflexivity | apply ended_is_idle].
Qed.

Lemma step_txTimestamp (s : Stub) (op : Operation) :
  txTimestamp (step s op)
  = match timestamp_set_by op with
    | Some t => Some t
    | None => txTimestamp s
    end.
Proof.
  destruct op; simpl; try reflexivity.
  - unfold getFunctionAndParameters.
    now destruct (getStringArgs s) as [[|f rest]|].
  - unfold putState. destruct (txID_is_empty s); [reflexivity |].
    unfold history_push; simpl.
    destruct (history s !! key) eqn:E; simpl; rewrite ?E, ?lookup_insert_eq;
      reflexivity.
  - unfold deleteState, history_push. now destruct (history s !! key).
  - unfold setEvent. now destruct (txID_is_empty s).
  - unfold putPrivateData. destruct (txID_is_empty s); [reflexivity |].
    destruct (privateCollections s !! collection) eqn:E; simpl;
      rewrite ?E, ?lookup_insert_eq; reflexivity.
  - unfold deletePrivateData.
    destruct (JsObject.get (collection_or_empty s collection) key);
      [| reflexivity].
    now destruct (privateCollections s !! collection).
Qed.

(** X12: on a stub built from a fresh one by operations, [getTxTimestamp]
    throws "TxTimestamp not set." exactly when neither
    [mockTransactionStart] nor [setTxTimestamp] has run; otherwise it
    returns the timestamp that the last of them installed (the default
    timestamp for a transaction start).  No other operation,
    [mockTransactionEnd] included, clears or changes it. *)
Theorem getTxTimestamp_after_run (cert : string) (ops : list Operation) :
  getTxTimestamp (run (new_ChaincodeMockStub cert) ops)
  = match last (omap timestamp_set_by ops) with
    | Some t => Returned t
    | None => Thrown (Error "TxTimestamp not set.")
    end.
Proof.
  assert (Hgen : forall s,
            txTimestamp (run s ops)
            = match last (omap timestamp_set_by ops) with
              | Some t => Some t
              | None => txTimestamp s
              end).
  { unfold run. induction ops as [|op ops IH]; intros s; [reflexivity |].
    cbn [fold_left omap list_omap]. rewrite IH, step_txTimestamp.
    destruct (timestamp_set_by op) as [t|]; [| reflexivity].
    rewrite last_cons. now destruct (last (omap timestamp_set_by ops)). }
  unfold getTxTimestamp. rewrite Hgen.
  now destruct (last (omap timestamp_set_by ops)).
Qed.

(** ** Registering and invoking peers *)

(** X13: a peer registered with [mockPeerChaincode] under the key that
    [invokeChaincode] computes, the name for the empty channel and
    [name/channel] otherwise, is the one invoked when that key is an
    ordinary name: the call is the peer's [mockInvoke] on the caller's
    transaction id. *)
Theorem registered_peer_is_invoked (cc : StubId -> ChaincodeInterface)
    (w : World) (this peer : StubId) (chaincodeName channel : string)
    (args0 : list string) :
  ordinary (if String.eqb channel "" then chaincodeName
            else chaincodeName ++ "/" ++ channel) = true ->
  let key :=
    if String.eqb channel "" then chaincodeName
    else chaincodeName ++ "/" ++ channel in
  let w' := update_stub this (mockPeerChaincode key peer) w in
  invokeChaincode cc w' this chaincodeName args0 channel
  = mockInvoke cc w' peer (getTxID (w !!! this)) args0 None.
Proof.
  intros _ key w'. subst key w'. unfold invokeChaincode, update_stub.
  rewrite lookup_total_insert_eq.
  destruct (String.eqb channel ""); simpl; now rewrite lookup_insert_eq.
Qed.

Lemma registered_peer_is_invoked_witness :
  invokeChaincode (fun _ => echo_txid)
    (update_stub 1%nat (mockPeerChaincode "cc2/ch" 2%nat) two_stub_world)
    1%nat "cc2" ["fn"] "ch"
  = mockInvoke (fun _ => echo_txid)
      (update_stub 1%nat (mockPeerChaincode "cc2/ch" 2%nat) two_stub_world)
      2%nat (getTxID (two_stub_world !!! 1%nat)) ["fn"] None.
Proof.
  apply (registered_peer_is_invoked (fun _ => echo_txid) two_stub_world
           1%nat 2%nat "cc2" "ch" ["fn"]).
  reflexivity.
Defined.

(** X14: after [invokeChaincode] has returned a response, the invoked peer
    is idle.  A stub that has registered itself as a peer therefore loses
    its own transaction by invoking itself. *)
Theorem invoked_peer_is_idle (cc : StubId -> ChaincodeInterface)
    (w w' : World) (this peer : StubId) (chaincodeName channel : string)
    (args0 : list string) (res : ChaincodeResponse) :
  invokables (w !!! this)
    !! (if String.eqb channel "" then chaincodeName
        else chaincodeName ++ "/" ++ channel) = Some peer ->
  invokeChaincode cc w this chaincodeName args0 channel = (Returned res, w') ->
  idle (w' !!! peer).
Proof.
  intros Hpeer. unfold invokeChaincode.
  destruct (String.eqb channel ""); simpl; rewrite Hpeer; unfold mockInvoke;
    destruct (Invoke (cc peer) peer _) as [[res0|r|e] w3]; intros Heq;
    try discriminate; injection Heq as _ <-; apply ended_is_idle.
Qed.

Lemma invoked_peer_is_idle_witness :
  idle (snd (invokeChaincode (fun _ => echo_txid) self_peer_world 1%nat
               "me" ["fn"] "") !!! 1%nat).
Proof.
  apply (invoked_peer_is_idle (fun _ => echo_txid) self_peer_world _
           1%nat 1%nat "me" "" ["fn"]
           {| status := 200; message := ""; payload := "t1" |});
    reflexivity.
Defined.

(** ** The order of a range scan *)

Lemma Object_keys_set_present (o : JsObject.t Buffer) (k : string) (v : Buffer) :
  is_Some (JsObject.get o k) ->
  JsObject.Object_keys (JsObject.set o k v) = JsObject.Object_keys o.
Proof.
  intros Hlive. unfold JsObject.Object_keys.
  rewrite JsObjectFacts.keys_set.
  apply JsObjectFacts.In_keys_get, JsObjectFacts.mem_In in Hlive.
  now rewrite Hlive.
Qed.



(** X15: overwriting a key that is an own property of the state object
    keeps its place: every range scan yields the same keys in the same
    order before and after the write. *)
Theorem overwrite_keeps_scan_order (s : Stub) (key : string) (value : Buffer)
    (now : MockProtoTimestamp) (startKey endKey : string) :
  txID_is_empty s = false ->
  is_Some (own_state s key) ->
  map kv_key (state_items
                (getStateByRange (snd (putState s key value now))
                   startKey endKey))
  = map kv_key (state_items (getStateByRange s startKey endKey)).
Proof.
  intros Htx Hlive. rewrite putState_accepted by assumption.
  cbn [snd getStateByRange state_items]. rewrite !range_items_keys. simpl.
  now rewrite Object_keys_set_present.
Qed.

Lemma overwrite_keeps_scan_order_witness :
  map kv_key (state_items
                (getStateByRange
                   (snd (putState stub_b_then_a "b" "3" (ProtoTimestamp 3)))
                   "" ""))
  = map kv_key (state_items (getStateByRange stub_b_then_a "" "")).
Proof.
  apply (overwrite_keeps_scan_order stub_b_then_a "b" "3" (ProtoTimestamp 3)).
  - reflexivity.
  - exists "1". reflexivity.
Defined.



(** X17: on a stub built from a fresh one by operations that store under
    ordinary names, a key on which [deleteState] was called is in no range
    scan afterwards. *)
Theorem deleted_key_not_scanned (cert : string) (ops : list Operation)
    (key : string) (now : MockProtoTimestamp) (startKey endKey : string) :
  forallb ordinary_op ops = true ->
  let s := run (new_ChaincodeMockStub cert) ops in
  Forall (fun k => k <> key)
    (map kv_key (state_items
                   (getStateByRange (snd (deleteState s key now))
                      startKey endKey))).
Proof.
  intros _ s. apply List.Forall_forall. intros k Hin ->.
  cbn [getStateByRange state_items] in Hin.
  rewrite range_items_keys in Hin.
  apply List.filter_In in Hin as [Hin _].
  apply JsObjectFacts.In_Object_keys in Hin.
  change (is_Some (getState (snd (deleteState s key now)) key)) in Hin.
  assert (Hbuilt : snd (deleteState s key now)
                   = run (new_ChaincodeMockStub cert)
                       (ops ++ [OpDeleteState key now]))
    by (subst s; now rewrite run_app).
  rewrite Hbuilt, built_replay, <- Hbuilt in Hin.
  destruct (history s !! key) as [log|] eqn:E.
  - rewrite (deleteState_with_history s key now log) in Hin by exact E.
    cbn in Hin. rewrite lookup_insert_eq, replay_snoc in Hin.
    simpl in Hin. destruct Hin; discriminate.
  - unfold deleteState, history_push in Hin. rewrite E in Hin.
    cbn [snd] in Hin. rewrite E in Hin. destruct Hin; discriminate.
Qed.

Lemma deleted_key_not_scanned_witness :
  Forall (fun k => k <> "a")
    (map kv_key (state_items
                   (getStateByRange
                      (snd (deleteState stub_b_then_a "a" (ProtoTimestamp 3)))
                      "" ""))).
Proof.
  apply (deleted_key_not_scanned ""
           [OpTransactionStart (Some "t1") None;
            OpPutState "b" "1" (ProtoTimestamp 1);
            OpPutState "a" "2" (ProtoTimestamp 2)]
           "a" (ProtoTimestamp 3) "" "").
  reflexivity.
Defined.

(** ** The bounds of a range scan *)

Lemma strcmp_refl (a : string) : strcmp a a = 0%Z.
Proof.
  induction a as [|c a IH]; simpl; [reflexivity |].
  now rewrite N.ltb_irrefl.
Qed.

Lemma in_range_empty_end (startKey k : string) :
  startKey <> "" -> in_range startKey "" k = false.
Proof.
  intros Hne. unfold in_range.
  destruct (String.eqb_spec startKey "") as [->|_]; [contradiction |].
  simpl. rewrite orb_false_r.
  destruct k as [|c k]; simpl.
  - destruct startKey; [contradiction | reflexivity].
  - apply andb_false_r.
Qed.

(** X18: both bounds of a range scan are inclusive, so the scan from a key
    that is an own property of the state object to itself yields that key;
    and a scan with a non-empty start key and the empty end key yields
    nothing. *)
Theorem range_scan_bounds (s : Stub) (k startKey : string) :
  is_Some (own_state s k) ->
  startKey <> "" ->
  In k (map kv_key (state_items (getStateByRange s k k)))
  /\ state_items (getStateByRange s startKey "") = [].
Proof.
  intros Hlive Hne. cbn [getStateByRange state_items]. split.
  - rewrite range_items_keys. apply List.filter_In. split.
    + now apply JsObjectFacts.In_Object_keys.
    + unfold in_range. now rewrite strcmp_refl.
  - unfold range_items.
    induction (JsObject.Object_keys (props (state s))) as [|x l IH];
      simpl; [reflexivity |].
    now rewrite in_range_empty_end.
Qed.

Lemma range_scan_bounds_witness :
  In "a" (map kv_key (state_items (getStateByRange stub_b_then_a "a" "a")))
  /\ state_items (getStateByRange stub_b_then_a "a" "") = [].
Proof.
  apply (range_scan_bounds stub_b_then_a "a" "a").
  - exists "2". reflexivity.
  - discriminate.
Defined.

(** ** Range scans of a private collection *)

Lemma step_wf_collections (s : Stub) (op : Operation) :
  wf_collections s -> wf_collections (step s op).
Proof.
  intros Hwf. destruct op; simpl; try assumption.
  - unfold getFunctionAndParameters.
    now destruct (getStringArgs s) as [[|f rest]|].
  - unfold putState. destruct (txID_is_empty s); [assumption |].
    unfold history_push; simpl.
    destruct (history s !! key) eqn:E; simpl; rewrite ?E, ?lookup_insert_eq;
      assumption.
  - unfold deleteState, history_push. now destruct (history s !! key).
  - unfold setEvent. now destruct (txID_is_empty s).
  - destruct (txID_is_empty s) eqn:Htx.
    + unfold putPrivateData. now rewrite Htx.
    + rewrite putPrivateData_accepted by assumption. simpl.
      intros c m. simpl. destruct (decide (collection = c)) as [<-|Hne].
      * rewrite lookup_insert_eq. intros [= <-]. simpl.
        apply JsObjectFacts.wf_set.
        destruct (privateCollections s !! collection) as [m0|] eqn:E;
          [now apply (Hwf collection) | reflexivity].
      * rewrite lookup_insert_ne by assumption. apply Hwf.
  - unfold deletePrivateData.
    destruct (JsObject.get (collection_or_empty s collection) key);
      [| assumption].
    destruct (privateCollections s !! collection) as [m0|] eqn:E;
      [| assumption].
    intros c m. simpl. destruct (decide (collection = c)) as [<-|Hne].
    + rewrite lookup_insert_eq. intros [= <-]. simpl.
      now apply (Hwf collection).
    + rewrite lookup_insert_ne by assumption. apply Hwf.
Qed.

Lemma built_wf_collections (cert : string) (ops : list Operation) :
  wf_collections (run (new_ChaincodeMockStub cert) ops).
Proof.
  apply (run_invariant wf_collections).
  - apply step_wf_collections.
  - intros c m Hc. simpl in Hc. now rewrite lookup_empty in Hc.
Qed.

(** X19: on a stub built from a fresh one by operations that store under
    ordinary names, [getPrivateDataByRange] of a collection with an ordinary
    name yields exactly the own keys of the collection that lie between the
    bounds (all of them when both bounds are empty), each once and with the
    value stored under it; a collection that was never written yields
    nothing. *)
Theorem getPrivateDataByRange_keys (cert : string) (ops : list Operation)
    (collection startKey endKey : string) :
  forallb ordinary_op ops = true ->
  ordinary collection = true ->
  let s := run (new_ChaincodeMockStub cert) ops in
  let items := state_items (getPrivateDataByRange s collection startKey endKey) in
  (forall k, In k (map kv_key items) <->
     is_Some (own_private s collection k) /\
     ((lex_le startKey k /\ lex_le k endKey) \/ (startKey = "" /\ endKey = "")))
  /\ List.NoDup (map kv_key items)
  /\ Forall (fun kv => kv_value kv = own_private s collection (kv_key kv)) items
  /\ (is_Some (privateCollections s !! collection) \/ items = []).
Proof.
  intros _ _ s items. subst items. cbn [getPrivateDataByRange state_items].
  rewrite range_items_keys. unfold own_private.
  split; [| split; [| split]].
  - intros k. rewrite List.filter_In, JsObjectFacts.In_Object_keys.
    rewrite in_range_spec. reflexivity.
  - apply List.NoDup_filter, JsObjectFacts.Object_keys_NoDup.
    unfold collection_or_empty.
    destruct (privateCollections s !! collection) as [m|] eqn:E;
      [| reflexivity].
    now apply (built_wf_collections cert ops collection).
  - apply List.Forall_forall. intros kv Hkv. unfold range_items in Hkv.
    now apply List.in_map_iff in Hkv as (k & <- & _).
  - unfold collection_or_empty.
    destruct (privateCollections s !! collection) as [m|];
      [left; now eexists | now right].
Qed.

Lemma getPrivateDataByRange_keys_witness :
  List.NoDup
    (map kv_key
       (state_items
          (getPrivateDataByRange
             (run (new_ChaincodeMockStub "")
                [OpTransactionStart (Some "t1") None;
                 OpPutPrivateData "C1" "b" "1";
                 OpPutPrivateData "C1" "a" "2"])
             "C1" "" ""))).
Proof.
  apply (getPrivateDataByRange_keys ""
           [OpTransactionStart (Some "t1") None;
            OpPutPrivateData "C1" "b" "1";
            OpPutPrivateData "C1" "a" "2"]
           "C1" "" "");
    reflexivity.
Defined.

(** ** Which transaction ids open the gate *)



(** ** Private data leaves no trace outside its collection *)

(** X21: in a run of operations that store under ordinary names,
    dropping every [putPrivateData] and [deletePrivateData] addressed to
    one collection changes nothing that is read elsewhere: the other
    collections, the state, the history and the events are the same. *)
Theorem collection_operations_invisible (c1 c2 : string) (s : Stub)
    (ops : list Operation) (k : string) :
  forallb ordinary_op ops = true ->
  c1 <> c2 ->
  let full := run s ops in
  let without :=
    run s (List.filter (fun op => negb (writes_collection c1 op)) ops) in
  getPrivateData full c2 k = getPrivateData without c2 k
  /\ getState full k = getState without k
  /\ history full !! k = history without !! k
  /\ getEvent full k = getEvent without k.
Proof.
  intros _ Hne full without.
  assert (Herase : erase c1 full = erase c1 without).
  { subst full without. rewrite !erase_run. f_equal.
    induction ops as [|op ops IH]; simpl; [reflexivity |].
    destruct (writes_collection c1 op) eqn:E; simpl; rewrite ?E; simpl;
      [exact IH | f_equal; exact IH]. }
  split; [| split; [| split]].
  - rewrite <- (erase_getPrivateData c1 full c2 k Hne).
    rewrite <- (erase_getPrivateData c1 without c2 k Hne).
    now rewrite Herase.
  - rewrite <- (erase_getState c1 full k), <- (erase_getState c1 without k).
    now rewrite Herase.
  - change (history (erase c1 full) !! k = history (erase c1 without) !! k).
    now rewrite Herase.
  - change (getEvent (erase c1 full) k = getEvent (erase c1 without) k).
    now rewrite Herase.
Qed.

Lemma collection_operations_invisible_witness :
  getPrivateData
    (run stub_in_t1 [OpPutPrivateData "C1" "k" "v"; OpPutPrivateData "C2" "k" "w"])
    "C2" "k"
  = getPrivateData
      (run stub_in_t1
         (List.filter (fun op => negb (writes_collection "C1" op))
            [OpPutPrivateData "C1" "k" "v"; OpPutPrivateData "C2" "k" "w"]))
      "C2" "k".
Proof.
  apply (collection_operations_invisible "C1" "C2" stub_in_t1
           [OpPutPrivateData "C1" "k" "v"; OpPutPrivateData "C2" "k" "w"] "k");
    [reflexivity | discriminate].
Defined.

(** ** Keys that were never written *)

(** X22: only [putState] creates a history log: on a stub built from a
    fresh one by operations that store under ordinary names and none of
    which is a [putState] of the ordinary key, the key has no log, is not
    live, and [deleteState] of it throws and changes nothing. *)
Theorem unwritten_key_cannot_be_deleted (cert key : string)
    (ops : list Operation) (now : MockProtoTimestamp) :
  forallb ordinary_op ops = true ->
  ordinary key = true ->
  forallb (fun op => match op with
                     | OpPutState k _ _ => negb (String.eqb k key)
                     | _ => true
                     end) ops = true ->
  let s := run (new_ChaincodeMockStub cert) ops in
  history s !! key = None
  /\ getState s key = None
  /\ deleteState s key now = (Thrown TypeError, s).
Proof.
  intros _ _ Hops s.
  assert (Hnone : history s !! key = None)
    by (now apply never_written_no_history).
  split; [exact Hnone |]. split.
  - subst s. rewrite built_replay. fold (run (new_ChaincodeMockStub cert) ops).
    now rewrite Hnone.
  - unfold deleteState, history_push. now rewrite Hnone.
Qed.

Lemma unwritten_key_cannot_be_deleted_witness :
  deleteState stub_b_then_a "c" (ProtoTimestamp 3)
  = (Thrown TypeError, stub_b_then_a).
Proof.
  apply (unwritten_key_cannot_be_deleted "" "c"
           [OpTransactionStart (Some "t1") None;
            OpPutState "b" "1" (ProtoTimestamp 1);
            OpPutState "a" "2" (ProtoTimestamp 2)]
           (ProtoTimestamp 3));
    reflexivity.
Defined.
